(** * Tic-Tac-Toe: the rules engine, the client state and the room store

    A shallow embedding of [src/App.tsx] (the React component [App]) and of
    [supabase/migrations/20250124094337_summer_castle.sql] (the [game_rooms]
    table and its row-level-security policies).

    - React state is a record ([AppState]); every handler of the component
      is a function from the state it closes over to the state after its
      setters have run.
    - The remote table is a finite map from the [code] column, which the
      schema declares [UNIQUE NOT NULL], to the remaining columns.
    - Values that come from outside the component (the user returned by
      [auth.signUp], the string returned by [nanoid], [new Date()], the
      payload of a broadcast) are arguments of the handlers.
    - Sound effects and rendering are not modelled. *)

From stdpp Require Import gmap strings list fin_maps.
From Stdlib Require Import Ascii String.

Open Scope string_scope.
Open Scope list_scope.

(** ** Data model *)

(** [type Player = 'X' | 'O'] *)
Inductive Player := X | O.

(** An element of a [Board] as JavaScript sees it.  The declared type is
    [Player | null]; [Undef] stands for [undefined], which is what reading
    past the end of an array (or reading a hole left by writing past its end)
    yields.  [undefined] and holes behave alike in every operation of the
    component: both are falsy, and [every] either skips them or finds them
    different from [null]. *)
Inductive Cell := Null | Undef | Mark (p : Player).

(** [type Board = (Player | null)[]] *)
Definition Board := list Cell.

(** The non-null values of [winner : Player | 'Draw' | null]. *)
Inductive Outcome := Win (p : Player) | Draw.

Global Instance Player_eq_dec : EqDecision Player.
Proof. solve_decision. Defined.
Global Instance Cell_eq_dec : EqDecision Cell.
Proof. solve_decision. Defined.
Global Instance Outcome_eq_dec : EqDecision Outcome.
Proof. solve_decision. Defined.

(** ** JavaScript array and value operations used by the component *)

(** [squares[i]]: [undefined] out of range. *)
Definition get (squares : Board) (i : nat) : Cell := nth i squares Undef.

(** Truthiness of a cell: the strings ['X'] and ['O'] are truthy, [null] and
    [undefined] are falsy. *)
Definition truthy (c : Cell) : bool :=
  match c with Mark _ => true | _ => false end.

(** [c === d] *)
Definition strict_eq (c d : Cell) : bool := bool_decide (c = d).

(** [arr[i] = v] on a copy: in range it replaces the element, past the end
    JavaScript extends the array, leaving holes before position [i]. *)
Fixpoint array_set (arr : Board) (i : nat) (v : Cell) : Board :=
  match arr, i with
  | [], 0 => [v]
  | [], S i' => Undef :: array_set [] i' v
  | _ :: t, 0 => v :: t
  | h :: t, S i' => h :: array_set t i' v
  end.

(** [Array(9).fill(null)] *)
Definition empty_board : Board := replicate 9 Null.

(** What a board becomes when it is sent as JSON ([jsonb] column, broadcast
    payload): [undefined] elements and holes are serialised as [null]. *)
Definition to_json (b : Board) : Board :=
  map (fun c => match c with Undef => Null | _ => c end) b.

(** ** The rules engine *)

(** [winningCombinations], lines 53-57. *)
Definition winningCombinations : list (nat * nat * nat) :=
  [ (0, 1, 2); (3, 4, 5); (6, 7, 8);
    (0, 3, 6); (1, 4, 7); (2, 5, 8);
    (0, 4, 8); (2, 4, 6) ].

(** The test of the [if] at line 160. *)
Definition line_complete (squares : Board) (l : nat * nat * nat) : bool :=
  let '(a, b, c) := l in
  truthy (get squares a)
  && strict_eq (get squares a) (get squares b)
  && strict_eq (get squares a) (get squares c).

(** The [for ... of] loop of lines 159-163 over a list of combinations:
    the value returned from inside the loop, if any. *)
Fixpoint first_line (squares : Board) (combos : list (nat * nat * nat))
  : option Cell :=
  match combos with
  | [] => None
  | (a, b, c) :: rest =>
      if line_complete squares (a, b, c) then Some (get squares a)
      else first_line squares rest
  end.

(** [squares.every(square => square !== null)] *)
Definition every_not_null (squares : Board) : bool :=
  forallb (fun square => negb (strict_eq square Null)) squares.

(** The value [checkWinner] hands back, [Player | 'Draw' | null], as an
    optional [Outcome].  The loop only returns truthy cells, which are
    marks. *)
Definition outcome_of_cell (c : Cell) : option Outcome :=
  match c with Mark p => Some (Win p) | _ => None end.

(** [checkWinner], lines 158-168. *)
Definition checkWinner (squares : Board) : option Outcome :=
  match first_line squares winningCombinations with
  | Some c => outcome_of_cell c
  | None => if every_not_null squares then Some Draw else None
  end.

(** ** Strings *)

(** Strings are modelled as ASCII text.  [String.prototype.toUpperCase]
    maps the letters [a]-[z] to [A]-[Z] and leaves every other ASCII
    character as it is.  Characters outside ASCII, which JavaScript may map
    to other characters or to several, are outside the model; the codes
    [nanoid] produces are ASCII. *)
Definition is_lower (c : ascii) : bool :=
  (97 <=? nat_of_ascii c)%nat && (nat_of_ascii c <=? 122)%nat.
Definition is_upper (c : ascii) : bool :=
  (65 <=? nat_of_ascii c)%nat && (nat_of_ascii c <=? 90)%nat.
Definition is_digit (c : ascii) : bool :=
  (48 <=? nat_of_ascii c)%nat && (nat_of_ascii c <=? 57)%nat.

Definition upper_char (c : ascii) : ascii :=
  if is_lower c then ascii_of_nat (nat_of_ascii c - 32) else c.

Fixpoint toUpperCase (s : string) : string :=
  match s with
  | EmptyString => EmptyString
  | String c rest => String (upper_char c) (toUpperCase rest)
  end.

(** Truthiness of a string: the empty string is falsy. *)
Definition nonempty (s : string) : bool :=
  match s with EmptyString => false | String _ _ => true end.

Fixpoint string_forall (p : ascii -> bool) (s : string) : bool :=
  match s with
  | EmptyString => true
  | String c rest => p c && string_forall p rest
  end.

(** The alphabet [nanoid] draws from (the package's [urlAlphabet]):
    [A-Za-z0-9_-]. *)
Definition url_safe (c : ascii) : bool :=
  is_lower c || is_upper c || is_digit c
  || bool_decide (c = "_"%char) || bool_decide (c = "-"%char).

(** What the package documents about [nanoid(n)]: a string of [n]
    characters of that alphabet. *)
Definition nanoid_result (n : nat) (s : string) : Prop :=
  String.length s = n /\ string_forall url_safe s = true.

(** Two characters that differ at most in letter case, stated without
    [toUpperCase]: they are equal, or one is a lower-case letter and the
    other is the upper-case letter 32 code points below it. *)
Definition same_letter (c d : ascii) : bool :=
  bool_decide (c = d)
  || (is_lower c && bool_decide (nat_of_ascii d + 32 = nat_of_ascii c))
  || (is_lower d && bool_decide (nat_of_ascii c + 32 = nat_of_ascii d)).

Fixpoint differs_only_in_case (s t : string) : bool :=
  match s, t with
  | EmptyString, EmptyString => true
  | String c s', String d t' => same_letter c d && differs_only_in_case s' t'
  | _, _ => false
  end.

(** ** The [game_rooms] table *)

Definition UserId := string.

(** The values the component writes into the [status] column. *)
Inductive Status := waiting | playing | finished.

Global Instance Status_eq_dec : EqDecision Status.
Proof. solve_decision. Defined.

Module GameRooms.

(** A row of [game_rooms] without its key [code] and without [id],
    [created_at] and [updated_at], which no statement of the component
    reads or writes. *)
Record row := mkRow {
  host_id : UserId;
  guest_id : option UserId;
  board : Board;
  current_player : Player;
  winner : option Outcome;
  status : Status
}.

(** The columns an [update] may set; [None] leaves a column alone. *)
Record patch := mkPatch {
  set_guest_id : option (option UserId);
  set_board : option Board;
  set_current_player : option Player;
  set_winner : option (option Outcome);
  set_status : option Status
}.

Definition apply_patch (p : patch) (r : row) : row :=
  {| host_id := host_id r;
     guest_id := default (guest_id r) (set_guest_id p);
     board := default (board r) (set_board p);
     current_player := default (current_player r) (set_current_player p);
     winner := default (winner r) (set_winner p);
     status := default (status r) (set_status p) |}.

(** Policy "Players can view their rooms", [USING] clause.  A comparison
    with a [NULL] [guest_id] is not true. *)
Definition select_using (uid : UserId) (r : row) : bool :=
  bool_decide (uid = host_id r)
  || bool_decide (guest_id r = Some uid)
  || (bool_decide (guest_id r = None) && bool_decide (status r = waiting)).

(** Policy "Players can update their rooms": [USING] and [WITH CHECK]
    carry the same expression. *)
Definition update_using (uid : UserId) (r : row) : bool :=
  bool_decide (uid = host_id r) || bool_decide (guest_id r = Some uid).

Definition update_check (uid : UserId) (r : row) : bool :=
  bool_decide (uid = host_id r) || bool_decide (guest_id r = Some uid).

(** [insert([{code, host_id, board, current_player}])]: the other columns
    take their defaults.  All policies are granted [TO authenticated], the
    insert policy checks [true], and [code] is [UNIQUE]. *)
Definition insert (session : option UserId) (code : string) (host : UserId)
    (b : Board) (cp : Player) (db : gmap string row)
  : option (gmap string row) :=
  match session, db !! code with
  | Some _, None =>
      Some (<[code := {| host_id := host; guest_id := None; board := b;
                         current_player := cp; winner := None;
                         status := waiting |}]> db)
  | _, _ => None
  end.

(** [update(p).eq('code', code)] followed by further filters [cond]: the
    row is touched only when the policies let the caller see it for
    update; the new row must pass [WITH CHECK] (and stay readable), or
    the statement fails and changes nothing.  The second component is
    the row handed back to [.select()], if any. *)
Definition update (session : option UserId) (code : string)
    (cond : row -> bool) (p : patch) (db : gmap string row)
  : gmap string row * option row :=
  match session, db !! code with
  | Some uid, Some r =>
      if select_using uid r && update_using uid r && cond r then
        let r' := apply_patch p r in
        if update_check uid r' && select_using uid r'
        then (<[code := r']> db, Some r')
        else (db, None)
      else (db, None)
  | _, _ => (db, None)
  end.

End GameRooms.

(** ** React state *)

Inductive GameMode := local | online.

Global Instance GameMode_eq_dec : EqDecision GameMode.
Proof. solve_decision. Defined.

Module GameHistory.
Record entry := mkEntry {
  board : Board;
  winner : option Outcome;
  timestamp : Z
}.
End GameHistory.

Record PlayerInfo := mkPlayerInfo {
  name : string;
  score : nat;
  symbol : Player
}.

(** [{ [key in Player]: PlayerInfo }] *)
Record Players := mkPlayers {
  playerX : PlayerInfo;
  playerO : PlayerInfo
}.

Definition player_info (ps : Players) (p : Player) : PlayerInfo :=
  match p with X => playerX ps | O => playerO ps end.

(** [OnlineGameState].  The error paths build the object by spreading a
    possibly null previous value, so every field can be missing: [None] is
    [undefined] (or [null]). *)
Record OnlineGameState := mkOnline {
  roomCode : option string;
  isHost : option bool;
  connected : option bool;
  playerId : option UserId;
  errorMessage : option string
}.

Record AppState := mkApp {
  board : Board;
  currentPlayer : Player;
  winner : option Outcome;
  gameMode : option GameMode;
  players : Players;
  gameHistory : list GameHistory.entry;
  showHistory : bool;
  showSettings : bool;
  soundEnabled : bool;
  moveCount : nat;
  onlineGame : option OnlineGameState;
  joinCode : string
}.

(** The initial values of the [useState] calls, lines 32-46. *)
Definition initial_state : AppState :=
  {| board := empty_board;
     currentPlayer := X;
     winner := None;
     gameMode := None;
     players := {| playerX := mkPlayerInfo "Player 1" 0 X;
                   playerO := mkPlayerInfo "Player 2" 0 O |};
     gameHistory := [];
     showHistory := false;
     showSettings := false;
     soundEnabled := true;
     moveCount := 0;
     onlineGame := None;
     joinCode := "" |}.

(** A participant: the component's state and the user the Supabase client
    is signed in as ([auth.uid()] of its requests). *)
Record Client := mkClient {
  app : AppState;
  session : option UserId
}.

(** [gameMode === 'online'] *)
Definition is_online (s : AppState) : bool :=
  bool_decide (gameMode s = Some online).

(** [onlineGame?.connected] as a condition. *)
Definition online_connected (s : AppState) : bool :=
  match onlineGame s with
  | Some og => default false (connected og)
  | None => false
  end.

(** [onlineGame?.isHost ? 'X' : 'O'] *)
Definition own_mark (s : AppState) : Player :=
  match onlineGame s with
  | Some og => if default false (isHost og) then X else O
  | None => O
  end.

(** [onlineGame?.roomCode] as a condition: the code when it is a non-empty
    string. *)
Definition online_room (s : AppState) : option string :=
  match onlineGame s with
  | Some og =>
      match roomCode og with
      | Some c => if nonempty c then Some c else None
      | None => None
      end
  | None => None
  end.

(** [gameMode === 'online' && onlineGame?.roomCode] *)
Definition push_target (s : AppState) : option string :=
  if is_online s then online_room s else None.

(** ** Handlers of the component *)

(** The [catch] blocks of [createRoom] and [joinRoom]:
    [setOnlineGame(prev => ({ ...prev!, errorMessage: msg }))].  Spreading
    [null] contributes no property. *)
Definition set_error (msg : string) (s : AppState) : AppState :=
  let og :=
    match onlineGame s with
    | Some prev =>
        {| roomCode := roomCode prev; isHost := isHost prev;
           connected := connected prev; playerId := playerId prev;
           errorMessage := Some msg |}
    | None =>
        {| roomCode := None; isHost := None; connected := None;
           playerId := None; errorMessage := Some msg |}
    end in
  {| board := board s; currentPlayer := currentPlayer s; winner := winner s;
     gameMode := gameMode s; players := players s;
     gameHistory := gameHistory s; showHistory := showHistory s;
     showSettings := showSettings s; soundEnabled := soundEnabled s;
     moveCount := moveCount s; onlineGame := Some og;
     joinCode := joinCode s |}.

(** [setOnlineGame({ roomCode, isHost, connected: true, playerId,
    errorMessage: null })] *)
Definition set_connected (code : string) (host : bool) (uid : UserId)
    (s : AppState) : AppState :=
  {| board := board s; currentPlayer := currentPlayer s; winner := winner s;
     gameMode := gameMode s; players := players s;
     gameHistory := gameHistory s; showHistory := showHistory s;
     showSettings := showSettings s; soundEnabled := soundEnabled s;
     moveCount := moveCount s;
     onlineGame := Some {| roomCode := Some code; isHost := Some host;
                           connected := Some true; playerId := Some uid;
                           errorMessage := None |};
     joinCode := joinCode s |}.

(** The code [createRoom] stores: [nanoid(6).toUpperCase()], where [raw] is
    what [nanoid(6)] returned. *)
Definition new_room_code (raw : string) : string := toUpperCase raw.

(** [createRoom], lines 79-117.  [user] is [auth.user] of the sign-up (on
    success the client is signed in as that user), [raw] the result of
    [nanoid(6)]. *)
Definition createRoom (c : Client) (db : gmap string GameRooms.row)
    (user : option UserId) (raw : string)
  : Client * gmap string GameRooms.row :=
  match user with
  | None => (mkClient (set_error "Failed to create room" (app c)) (session c), db)
  | Some uid =>
      let roomCode := new_room_code raw in
      match GameRooms.insert (Some uid) roomCode uid
              (to_json (board (app c))) (currentPlayer (app c)) db with
      | Some db' =>
          (mkClient (set_connected roomCode true uid (app c)) (Some uid), db')
      | None =>
          (mkClient (set_error "Failed to create room" (app c)) (Some uid), db)
      end
  end.

(** The filters of the join: [.eq('status', 'waiting').is('guest_id', null)]. *)
Definition join_filter (r : GameRooms.row) : bool :=
  bool_decide (GameRooms.status r = waiting)
  && bool_decide (GameRooms.guest_id r = None).

(** [{ guest_id: auth.user.id, status: 'playing' }] *)
Definition join_patch (uid : UserId) : GameRooms.patch :=
  {| GameRooms.set_guest_id := Some (Some uid);
     GameRooms.set_board := None;
     GameRooms.set_current_player := None;
     GameRooms.set_winner := None;
     GameRooms.set_status := Some playing |}.

(** [joinRoom], lines 119-156. *)
Definition joinRoom (c : Client) (db : gmap string GameRooms.row)
    (user : option UserId)
  : Client * gmap string GameRooms.row :=
  if negb (nonempty (joinCode (app c))) then (c, db)
  else
    match user with
    | None => (mkClient (set_error "Failed to join room" (app c)) (session c), db)
    | Some uid =>
        let code := toUpperCase (joinCode (app c)) in
        match GameRooms.update (Some uid) code join_filter (join_patch uid) db with
        | (db', Some room) =>
            (mkClient (set_connected code false uid (app c)) (Some uid), db')
        | (db', None) =>
            (mkClient (set_error "Failed to join room" (app c)) (Some uid), db')
        end
    end.

(** The three early returns of [handleClick], lines 171-174. *)
Definition click_ignored (s : AppState) (index : nat) : bool :=
  (truthy (get (board s) index) || bool_decide (winner s <> None))
  || (is_online s && negb (online_connected s))
  || (is_online s && negb (bool_decide (currentPlayer s = own_mark s))).

(** [currentPlayer === 'X' ? 'O' : 'X'] *)
Definition other (p : Player) : Player :=
  match p with X => O | O => X end.

(** The [setPlayers] call of lines 189-195. *)
Definition add_point (ps : Players) (p : Player) : Players :=
  match p with
  | X => {| playerX := {| name := name (playerX ps);
                          score := score (playerX ps) + 1;
                          symbol := symbol (playerX ps) |};
            playerO := playerO ps |}
  | O => {| playerX := playerX ps;
            playerO := {| name := name (playerO ps);
                          score := score (playerO ps) + 1;
                          symbol := symbol (playerO ps) |} |}
  end.

(** [{ board: newBoard, winner: newWinner, status: 'finished' }] *)
Definition finish_patch (newBoard : Board) (w : Outcome) : GameRooms.patch :=
  {| GameRooms.set_guest_id := None;
     GameRooms.set_board := Some (to_json newBoard);
     GameRooms.set_current_player := None;
     GameRooms.set_winner := Some (Some w);
     GameRooms.set_status := Some finished |}.

(** [{ board: newBoard, current_player: nextPlayer }] *)
Definition turn_patch (newBoard : Board) (nextPlayer : Player)
  : GameRooms.patch :=
  {| GameRooms.set_guest_id := None;
     GameRooms.set_board := Some (to_json newBoard);
     GameRooms.set_current_player := Some nextPlayer;
     GameRooms.set_winner := None;
     GameRooms.set_status := None |}.

(** [{ board: Array(9).fill(null), current_player: 'X', winner: null,
    status: 'playing' }] *)
Definition reset_patch : GameRooms.patch :=
  {| GameRooms.set_guest_id := None;
     GameRooms.set_board := Some empty_board;
     GameRooms.set_current_player := Some X;
     GameRooms.set_winner := Some None;
     GameRooms.set_status := Some playing |}.

(** [supabase.from('game_rooms').update(p).eq('code', code)] when the
    component is online with a room code; the result is not inspected. *)
Definition push (c : Client) (p : GameRooms.patch)
    (db : gmap string GameRooms.row) : gmap string GameRooms.row :=
  match push_target (app c) with
  | Some code => fst (GameRooms.update (session c) code (fun _ => true) p db)
  | None => db
  end.

(** The state after the setters of an accepted click have run, lines
    176-207 and 220-221.  [now] is [new Date()]. *)
Definition apply_click (s : AppState) (index : nat) (now : Z) : AppState :=
  let newBoard := array_set (board s) index (Mark (currentPlayer s)) in
  match checkWinner newBoard with
  | Some newWinner =>
      {| board := newBoard; currentPlayer := currentPlayer s;
         winner := Some newWinner; gameMode := gameMode s;
         players := match newWinner with
                    | Win p => add_point (players s) p
                    | Draw => players s
                    end;
         gameHistory := gameHistory s ++
           [ {| GameHistory.board := newBoard;
                GameHistory.winner := Some newWinner;
                GameHistory.timestamp := now |} ];
         showHistory := showHistory s; showSettings := showSettings s;
         soundEnabled := soundEnabled s; moveCount := moveCount s + 1;
         onlineGame := onlineGame s; joinCode := joinCode s |}
  | None =>
      {| board := newBoard; currentPlayer := other (currentPlayer s);
         winner := winner s; gameMode := gameMode s; players := players s;
         gameHistory := gameHistory s;
         showHistory := showHistory s; showSettings := showSettings s;
         soundEnabled := soundEnabled s; moveCount := moveCount s + 1;
         onlineGame := onlineGame s; joinCode := joinCode s |}
  end.

(** The update an accepted click sends, lines 209-218 and 223-231. *)
Definition click_patch (s : AppState) (index : nat) : GameRooms.patch :=
  let newBoard := array_set (board s) index (Mark (currentPlayer s)) in
  match checkWinner newBoard with
  | Some newWinner => finish_patch newBoard newWinner
  | None => turn_patch newBoard (other (currentPlayer s))
  end.

(** [handleClick], lines 170-233. *)
Definition handleClick (c : Client) (db : gmap string GameRooms.row)
    (index : nat) (now : Z)
  : Client * gmap string GameRooms.row :=
  if click_ignored (app c) index then (c, db)
  else (mkClient (apply_click (app c) index now) (session c),
        push c (click_patch (app c) index) db).

(** The local part of [resetGame], lines 236-239. *)
Definition reset_local (s : AppState) : AppState :=
  {| board := empty_board; currentPlayer := X; winner := None;
     gameMode := gameMode s; players := players s;
     gameHistory := gameHistory s;
     showHistory := showHistory s; showSettings := showSettings s;
     soundEnabled := soundEnabled s; moveCount := 0;
     onlineGame := onlineGame s; joinCode := joinCode s |}.

(** [resetGame], lines 235-252. *)
Definition resetGame (c : Client) (db : gmap string GameRooms.row)
  : Client * gmap string GameRooms.row :=
  (mkClient (reset_local (app c)) (session c), push c reset_patch db).

(** The payload of a [game_update] broadcast. *)
Record Payload := mkPayload {
  payload_board : Board;
  payload_currentPlayer : Player;
  payload_winner : option Outcome
}.

(** The broadcast listener of lines 66-70; the channel exists only while
    the component is online with a room code (line 60). *)
Definition game_update (s : AppState) (payload : Payload) : AppState :=
  match push_target s with
  | Some _ =>
      {| board := payload_board payload;
         currentPlayer := payload_currentPlayer payload;
         winner := payload_winner payload;
         gameMode := gameMode s; players := players s;
         gameHistory := gameHistory s;
         showHistory := showHistory s; showSettings := showSettings s;
         soundEnabled := soundEnabled s; moveCount := moveCount s;
         onlineGame := onlineGame s; joinCode := joinCode s |}
  | None => s
  end.

(** [setGameMode(mode)], the two buttons of the start screen. *)
Definition setGameMode (mode : GameMode) (s : AppState) : AppState :=
  {| board := board s; currentPlayer := currentPlayer s; winner := winner s;
     gameMode := Some mode; players := players s;
     gameHistory := gameHistory s;
     showHistory := showHistory s; showSettings := showSettings s;
     soundEnabled := soundEnabled s; moveCount := moveCount s;
     onlineGame := onlineGame s; joinCode := joinCode s |}.

(** [setJoinCode(code)] *)
Definition with_joinCode (code : string) (s : AppState) : AppState :=
  {| board := board s; currentPlayer := currentPlayer s; winner := winner s;
     gameMode := gameMode s; players := players s;
     gameHistory := gameHistory s;
     showHistory := showHistory s; showSettings := showSettings s;
     soundEnabled := soundEnabled s; moveCount := moveCount s;
     onlineGame := onlineGame s; joinCode := code |}.

(** [onChange] of the code field, line 328:
    [setJoinCode(e.target.value.toUpperCase())]. *)
Definition enter_code (text : string) (s : AppState) : AppState :=
  with_joinCode (toUpperCase text) s.

(** ** Runs of one participant *)

(** What can happen to a participant: a user action or a broadcast. *)
Inductive Event :=
| ChooseMode (mode : GameMode)
| TypeCode (text : string)
| CreateRoom (user : option UserId) (raw : string)
| JoinRoom (user : option UserId)
| Click (index : nat) (now : Z)
| ResetGame
| Broadcast (payload : Payload).

Definition step (ev : Event) (w : Client * gmap string GameRooms.row)
  : Client * gmap string GameRooms.row :=
  let '(c, db) := w in
  match ev with
  | ChooseMode mode => (mkClient (setGameMode mode (app c)) (session c), db)
  | TypeCode text => (mkClient (enter_code text (app c)) (session c), db)
  | CreateRoom user raw => createRoom c db user raw
  | JoinRoom user => joinRoom c db user
  | Click index now => handleClick c db index now
  | ResetGame => resetGame c db
  | Broadcast payload => (mkClient (game_update (app c) payload) (session c), db)
  end.

Definition run (evs : list Event) (w : Client * gmap string GameRooms.row)
  : Client * gmap string GameRooms.row :=
  foldl (fun w ev => step ev w) w evs.

(** The marks written on the board by a sequence of clicks, in order: an
    accepted click writes [currentPlayer] (line 177), an ignored one writes
    nothing. *)
Fixpoint marks_placed (c : Client) (db : gmap string GameRooms.row)
    (clicks : list (nat * Z)) : list Player :=
  match clicks with
  | [] => []
  | (index, now) :: rest =>
      let '(c', db') := handleClick c db index now in
      if click_ignored (app c) index then marks_placed c' db' rest
      else currentPlayer (app c) :: marks_placed c' db' rest
  end.

(** [p, other p, p, ...], [n] marks. *)
Fixpoint alternating (p : Player) (n : nat) : list Player :=
  match n with
  | 0 => []
  | S n' => p :: alternating (other p) n'
  end.

(** ** Vocabulary of the specification *)

(** The eight winning lines as the specification lists them: three rows,
    three columns, two diagonals of the row-major 3x3 grid. *)
Definition rows : list (nat * nat * nat) :=
  map (fun r => (3 * r, 3 * r + 1, 3 * r + 2)) [0; 1; 2].
Definition columns : list (nat * nat * nat) :=
  map (fun c => (c, c + 3, c + 6)) [0; 1; 2].
Definition diagonals : list (nat * nat * nat) := [(0, 4, 8); (2, 4, 6)].
Definition winning_lines : list (nat * nat * nat) :=
  rows ++ columns ++ diagonals.

(** The three cells of a line all hold the mark [m]. *)
Definition holds (squares : Board) (m : Player) (l : nat * nat * nat) : Prop :=
  let '(a, b, c) := l in
  get squares a = Mark m /\ get squares b = Mark m /\ get squares c = Mark m.

(** Some winning line is filled by [m]. *)
Definition completes (squares : Board) (m : Player) : Prop :=
  exists l, In l winning_lines /\ holds squares m l.

(** A value of type [Board] with nine cells: each is [null] or a mark. *)
Definition nine_cells (squares : Board) : Prop :=
  List.length squares = 9 /\ Forall (fun c => c <> Undef) squares.

(** Every one of the nine cells holds a mark. *)
Definition all_occupied (squares : Board) : Prop :=
  forall i, i < 9 -> exists p, get squares i = Mark p.

(** [status = finished] exactly when [winner] is set. *)
Definition row_consistent (r : GameRooms.row) : Prop :=
  GameRooms.status r = finished <-> GameRooms.winner r <> None.

(** The same for every room of the table. *)
Definition rooms_consistent (db : gmap string GameRooms.row) : Prop :=
  forall code r, db !! code = Some r -> row_consistent r.

(** A scenario used in examples: the host right after choosing online play
    and creating a room, for which [nanoid(6)] returned ab12cd. *)
Definition host_in_room : Client * gmap string GameRooms.row :=
  run [ChooseMode online; CreateRoom (Some "host") "ab12cd"]
      (mkClient initial_state None, ∅).

(** A character of an upper-case alphanumeric code: [A-Z] or [0-9]. *)
Definition upper_alnum (c : ascii) : bool := is_upper c || is_digit c.

(** A character a stored code can hold: [A-Z], [0-9], [_] or [-]. *)
Definition code_char (c : ascii) : bool :=
  is_upper c || is_digit c
  || bool_decide (c = "_"%char) || bool_decide (c = "-"%char).

(** A scenario used in examples: somebody else, who chose online play and
    typed the host's code in lower case. *)
Definition guest_typed : Client :=
  mkClient (enter_code "ab12cd" (setGameMode online initial_state)) None.

(** ** The remaining handlers and the screens *)

(** [resetScores], lines 254-260: both scores to 0 (names and symbols are
    spread from the current value), and the history emptied. *)
Definition resetScores (s : AppState) : AppState :=
  {| board := board s; currentPlayer := currentPlayer s; winner := winner s;
     gameMode := gameMode s;
     players :=
       {| playerX := {| name := name (playerX (players s)); score := 0;
                        symbol := symbol (playerX (players s)) |};
          playerO := {| name := name (playerO (players s)); score := 0;
                        symbol := symbol (playerO (players s)) |} |};
     gameHistory := [];
     showHistory := showHistory s; showSettings := showSettings s;
     soundEnabled := soundEnabled s; moveCount := moveCount s;
     onlineGame := onlineGame s; joinCode := joinCode s |}.

(** The [onChange] handlers of the two name fields, lines 585-588 and
    599-602: [setPlayers(prev => ({ ...prev, X: { ...prev.X, name }}))]. *)
Definition set_name (p : Player) (text : string) (s : AppState) : AppState :=
  {| board := board s; currentPlayer := currentPlayer s; winner := winner s;
     gameMode := gameMode s;
     players :=
       match p with
       | X => {| playerX := {| name := text;
                               score := score (playerX (players s));
                               symbol := symbol (playerX (players s)) |};
                 playerO := playerO (players s) |}
       | O => {| playerX := playerX (players s);
                 playerO := {| name := text;
                               score := score (playerO (players s));
                               symbol := symbol (playerO (players s)) |} |}
       end;
     gameHistory := gameHistory s;
     showHistory := showHistory s; showSettings := showSettings s;
     soundEnabled := soundEnabled s; moveCount := moveCount s;
     onlineGame := onlineGame s; joinCode := joinCode s |}.

(** [setSoundEnabled(!soundEnabled)], lines 432 and 609. *)
Definition toggle_sound (s : AppState) : AppState :=
  {| board := board s; currentPlayer := currentPlayer s; winner := winner s;
     gameMode := gameMode s; players := players s;
     gameHistory := gameHistory s;
     showHistory := showHistory s; showSettings := showSettings s;
     soundEnabled := negb (soundEnabled s); moveCount := moveCount s;
     onlineGame := onlineGame s; joinCode := joinCode s |}.

(** [setShowHistory(!showHistory)], line 438; the click on the open
    dialog's backdrop (line 629) sets it to [false], which is the same
    there. *)
Definition toggle_history (s : AppState) : AppState :=
  {| board := board s; currentPlayer := currentPlayer s; winner := winner s;
     gameMode := gameMode s; players := players s;
     gameHistory := gameHistory s;
     showHistory := negb (showHistory s); showSettings := showSettings s;
     soundEnabled := soundEnabled s; moveCount := moveCount s;
     onlineGame := onlineGame s; joinCode := joinCode s |}.

(** [setShowSettings(!showSettings)], line 444 (and line 567). *)
Definition toggle_settings (s : AppState) : AppState :=
  {| board := board s; currentPlayer := currentPlayer s; winner := winner s;
     gameMode := gameMode s; players := players s;
     gameHistory := gameHistory s;
     showHistory := showHistory s; showSettings := negb (showSettings s);
     soundEnabled := soundEnabled s; moveCount := moveCount s;
     onlineGame := onlineGame s; joinCode := joinCode s |}.

(** Everything that can happen to a participant: the events above and the
    handlers that only touch local state. *)
Inductive Action :=
| Do (ev : Event)
| ResetScores
| Rename (p : Player) (text : string)
| ToggleSound
| ToggleHistory
| ToggleSettings.

Definition act (a : Action) (w : Client * gmap string GameRooms.row)
  : Client * gmap string GameRooms.row :=
  match a with
  | Do ev => step ev w
  | ResetScores => (mkClient (resetScores (app (fst w))) (session (fst w)), snd w)
  | Rename p text =>
      (mkClient (set_name p text (app (fst w))) (session (fst w)), snd w)
  | ToggleSound => (mkClient (toggle_sound (app (fst w))) (session (fst w)), snd w)
  | ToggleHistory =>
      (mkClient (toggle_history (app (fst w))) (session (fst w)), snd w)
  | ToggleSettings =>
      (mkClient (toggle_settings (app (fst w))) (session (fst w)), snd w)
  end.

Definition perform (acts : list Action) (w : Client * gmap string GameRooms.row)
  : Client * gmap string GameRooms.row :=
  foldl (fun w a => act a w) w acts.

(** What the component renders, lines 665-669 and 306/345: the start
    screen, the online set-up screen with the create/join form
    ([!onlineGame]) or with the room panel, or the game. *)
Inductive Screen := ModeSelection | OnlineSetupForm | OnlineSetupRoom | GameView.

Global Instance Screen_eq_dec : EqDecision Screen.
Proof. solve_decision. Defined.

Definition render (s : AppState) : Screen :=
  if is_online s && negb (online_connected s) then
    match onlineGame s with
    | None => OnlineSetupForm
    | Some _ => OnlineSetupRoom
    end
  else
    match gameMode s with
    | Some _ => GameView
    | None => ModeSelection
    end.

(** The actions the rendered screen lets the user trigger.  The start screen
    has the two mode buttons (lines 395, 404); the form has the code field
    ([maxLength] 6), "Create Room" and "Join Room" (lines 311-337); the
    room panel only copies the code; the game has the nine squares
    ([renderSquare(i)] for [i] in 0..8, line 455), "New Game", "Reset
    Scores", the three header buttons and, while the settings dialog is
    open, the name fields.  A broadcast does not come from the user and can
    arrive at any time. *)
Definition offered (s : AppState) (a : Action) : bool :=
  match a with
  | Do (Broadcast _) => true
  | Do (ChooseMode _) => bool_decide (render s = ModeSelection)
  | Do (TypeCode text) =>
      bool_decide (render s = OnlineSetupForm) && (String.length text <=? 6)%nat
  | Do (CreateRoom _ _) => bool_decide (render s = OnlineSetupForm)
  | Do (JoinRoom _) =>
      bool_decide (render s = OnlineSetupForm) && nonempty (joinCode s)
  | Do (Click index _) => bool_decide (render s = GameView) && (index <? 9)%nat
  | Do ResetGame | ResetScores | ToggleSound | ToggleHistory | ToggleSettings =>
      bool_decide (render s = GameView)
  | Rename _ _ => bool_decide (render s = GameView) && showSettings s
  end.

(** A sequence of actions each of which is offered when it happens. *)
Fixpoint session_of_play (acts : list Action)
    (w : Client * gmap string GameRooms.row) : bool :=
  match acts with
  | [] => true
  | a :: rest => offered (app (fst w)) a && session_of_play rest (act a w)
  end.

(** ** Further vocabulary *)

(** The number of cells holding the mark [p]. *)
Fixpoint marks_of (p : Player) (b : Board) : nat :=
  match b with
  | [] => 0
  | c :: rest => (if strict_eq c (Mark p) then 1 else 0) + marks_of p rest
  end.

(** Exchanging the two marks. *)
Definition swap_cell (c : Cell) : Cell :=
  match c with Mark p => Mark (other p) | _ => c end.
Definition swap_outcome (w : Outcome) : Outcome :=
  match w with Win p => Win (other p) | Draw => Draw end.

(** The wins of [p] among recorded games. *)
Fixpoint wins_of (p : Player) (h : list GameHistory.entry) : nat :=
  match h with
  | [] => 0
  | e :: rest =>
      (if bool_decide (GameHistory.winner e = Some (Win p)) then 1 else 0)
      + wins_of p rest
  end.

(** A board as the type declares it: every cell [null] or a mark. *)
Definition typed_board (b : Board) : Prop := Forall (fun c => c <> Undef) b.

(** The payloads of all broadcasts among the actions carry nine-cell
    boards. *)
Definition broadcasts_nine_cells (acts : list Action) : Prop :=
  forall payload, In (Do (Broadcast payload)) acts ->
    nine_cells (payload_board payload).

(** The part of the state that makes up the game in progress. *)
Definition game_of (s : AppState) : Board * Player * option Outcome * nat :=
  (board s, currentPlayer s, winner s, moveCount s).

(** No broadcast among the actions. *)
Definition no_broadcast (acts : list Action) : Prop :=
  forall payload, ~ In (Do (Broadcast payload)) acts.

(** How a room may differ from an earlier version of itself: the host is
    the same, a guest once set is the same, and a room that has left
    [waiting] has not come back to it. *)
Definition later_version (r r' : GameRooms.row) : Prop :=
  GameRooms.host_id r' = GameRooms.host_id r
  /\ (GameRooms.guest_id r <> None -> GameRooms.guest_id r' = GameRooms.guest_id r)
  /\ (GameRooms.status r <> waiting -> GameRooms.status r' <> waiting).

(** Every room of the table holds a board without [undefined] cells and is
    not [waiting] once it has a guest. *)
Definition rooms_well_formed (db : gmap string GameRooms.row) : Prop :=
  forall code r, db !! code = Some r ->
    typed_board (GameRooms.board r)
    /\ (GameRooms.guest_id r <> None -> GameRooms.status r <> waiting).

(** A character of the ASCII range, on which the model of [toUpperCase]
    agrees with JavaScript. *)
Definition is_ascii (c : ascii) : bool := (nat_of_ascii c <? 128)%nat.

(** Every text typed into the code field is ASCII. *)
Definition ascii_typed (acts : list Action) : Prop :=
  forall text, In (Do (TypeCode text)) acts -> string_forall is_ascii text = true.

(** * Properties *)

(** ** checkWinner *)

Lemma line_complete_holds squares l :
  line_complete squares l = true <-> exists m, holds squares m l.
Proof.
  destruct l as [[a b] c]. unfold line_complete, holds, strict_eq.
  rewrite !andb_true_iff, !bool_decide_eq_true. split.
  - intros [[Ht Hb] Hc]. destruct (get squares a) as [| |m] eqn:Ha; try discriminate.
    exists m. auto.
  - intros (m & Ha & Hb & Hc). rewrite Ha, Hb, Hc. auto.
Qed.

Lemma first_line_none squares combos :
  first_line squares combos = None <->
  forall l, In l combos -> line_complete squares l = false.
Proof.
  induction combos as [|[[a b] c] rest IH]; cbn [first_line].
  - split; [intros _ l [] | reflexivity].
  - destruct (line_complete squares (a, b, c)) eqn:E.
    + split; [discriminate |]. intros H. specialize (H (a, b, c) (or_introl eq_refl)).
      congruence.
    + rewrite IH. split.
      * intros H l [<- | Hl]; [exact E | apply H, Hl].
      * intros H l Hl. apply H. right. exact Hl.
Qed.

(** The loop returns the first complete line's mark: every combination
    before it is incomplete. *)
Lemma first_line_some squares combos v :
  first_line squares combos = Some v <->
  exists pre l post m,
    combos = pre ++ l :: post /\
    (forall l', In l' pre -> line_complete squares l' = false) /\
    holds squares m l /\ v = Mark m.
Proof.
  induction combos as [|[[a b] c] rest IH]; cbn [first_line].
  - split; [discriminate |]. intros (pre & l & post & m & H & _).
    destruct pre; discriminate.
  - destruct (line_complete squares (a, b, c)) eqn:E.
    + split.
      * intros [= <-]. apply line_complete_holds in E as [m Hm].
        exists [], (a, b, c), rest, m.
        split; [reflexivity |]. split; [intros l' [] |].
        split; [exact Hm | apply Hm].
      * intros (pre & l & post & m & Heq & Hpre & Hm & ->).
        destruct pre as [|l0 pre]; simpl in Heq.
        -- injection Heq as <- _. f_equal. apply Hm.
        -- injection Heq as <- _. rewrite Hpre in E by (left; reflexivity).
           discriminate.
    + rewrite IH. split.
      * intros (pre & l & post & m & -> & Hpre & Hm & ->).
        exists ((a, b, c) :: pre), l, post, m.
        split; [reflexivity |]. split; [| split; [exact Hm | reflexivity]].
        intros l' [<- | Hl]; [exact E | apply Hpre, Hl].
      * intros (pre & l & post & m & Heq & Hpre & Hm & ->).
        destruct pre as [|l0 pre]; simpl in Heq.
        -- injection Heq as <- _.
           assert (line_complete squares (a, b, c) = true)
             by (apply line_complete_holds; eauto).
           congruence.
        -- injection Heq as <- ->. exists pre, l, post, m.
           split; [reflexivity |]. split; [| split; [exact Hm | reflexivity]].
           intros l' Hl. apply Hpre. right. exact Hl.
Qed.

Lemma winning_lines_table : winning_lines = winningCombinations.
Proof. reflexivity. Qed.

Lemma holds_functional squares m m' l :
  holds squares m l -> holds squares m' l -> m = m'.
Proof.
  destruct l as [[a b] c]. intros [H _] [H' _]. congruence.
Qed.

Lemma every_not_null_spec squares :
  every_not_null squares = true <-> Forall (fun c => c <> Null) squares.
Proof.
  unfold every_not_null, strict_eq. rewrite forallb_forall, Forall_forall.
  split; intros H c Hc.
  - apply list_elem_of_In in Hc. specialize (H c Hc).
    apply negb_true_iff, bool_decide_eq_false in H. exact H.
  - apply negb_true_iff, bool_decide_eq_false. apply H.
    apply list_elem_of_In. exact Hc.
Qed.

Lemma get_lookup squares i c :
  squares !! i = Some c -> get squares i = c.
Proof.
  unfold get. revert i. induction squares as [|h t IH]; intros [|i]; simpl;
    try discriminate.
  - intros [= ->]. reflexivity.
  - apply IH.
Qed.

Lemma nine_cells_occupied squares :
  nine_cells squares ->
  (all_occupied squares <-> Forall (fun c => c <> Null) squares).
Proof.
  intros [Hlen Hty]. split.
  - intros Hocc. apply Forall_lookup. intros i c Hi ->.
    assert (i < 9) as Hlt by (rewrite <- Hlen; eapply lookup_lt_Some; eauto).
    destruct (Hocc i Hlt) as [p Hp]. apply get_lookup in Hi. congruence.
  - intros Hnn i Hi.
    destruct (lookup_lt_is_Some_2 squares i) as [c Hc]; [lia|].
    pose proof (Forall_lookup_1 _ _ _ _ Hnn Hc) as H1.
    pose proof (Forall_lookup_1 _ _ _ _ Hty Hc) as H2.
    apply get_lookup in Hc. destruct c as [| |p]; try congruence. eauto.
Qed.

Lemma checkWinner_none_iff squares :
  first_line squares winningCombinations = None <->
  forall m, ~ completes squares m.
Proof.
  rewrite first_line_none. unfold completes. rewrite winning_lines_table.
  split.
  - intros H m (l & Hin & Hm).
    assert (line_complete squares l = true) by (apply line_complete_holds; eauto).
    rewrite H in *; [discriminate | exact Hin].
  - intros H l Hin. destruct (line_complete squares l) eqn:E; [| reflexivity].
    apply line_complete_holds in E as [m Hm]. destruct (H m). eauto.
Qed.

(** C1. On a nine-cell board [checkWinner] returns [Win m] when one of the
    eight winning lines (three rows, three columns, two diagonals) is
    filled by the mark [m] and the other mark fills no line; when no line is
    filled it returns [Draw] if all nine cells are occupied and [null]
    otherwise. *)
Theorem checkWinner_outcome squares :
  nine_cells squares ->
  (forall m, completes squares m -> ~ completes squares (other m) ->
     checkWinner squares = Some (Win m))
  /\ ((forall m, ~ completes squares m) -> all_occupied squares ->
     checkWinner squares = Some Draw)
  /\ ((forall m, ~ completes squares m) -> ~ all_occupied squares ->
     checkWinner squares = None).
Proof.
  intros Hnine. unfold checkWinner. split; [| split].
  - intros m Hm Hother.
    destruct (first_line squares winningCombinations) as [v|] eqn:E.
    + apply first_line_some in E as (pre & l & post & m' & Heq & _ & Hm' & ->).
      simpl. destruct (decide (m' = m)) as [-> | Hne]; [reflexivity |].
      destruct Hother. exists l. split.
      * rewrite winning_lines_table, Heq. apply in_elt.
      * replace (other m) with m'; [exact Hm' |].
        destruct m, m'; simpl; congruence.
    + destruct (proj1 (checkWinner_none_iff squares) E m Hm).
  - intros Hno Hocc. apply checkWinner_none_iff in Hno. rewrite Hno.
    apply (nine_cells_occupied _ Hnine), every_not_null_spec in Hocc.
    rewrite Hocc. reflexivity.
  - intros Hno Hocc. apply checkWinner_none_iff in Hno. rewrite Hno.
    destruct (every_not_null squares) eqn:E; [| reflexivity].
    destruct Hocc. apply (nine_cells_occupied _ Hnine), every_not_null_spec, E.
Qed.

Lemma nine_cells_check squares :
  List.length squares = 9 ->
  forallb (fun c => negb (strict_eq c Undef)) squares = true ->
  nine_cells squares.
Proof.
  intros Hlen H. split; [exact Hlen |].
  apply Forall_forall. intros c Hc. apply list_elem_of_In in Hc.
  rewrite forallb_forall in H. specialize (H c Hc).
  apply negb_true_iff, bool_decide_eq_false in H. exact H.
Qed.

Ltac no_line :=
  let l := fresh "l" in let Hin := fresh "Hin" in let Hh := fresh "Hh" in
  intros (l & Hin & Hh); cbv in Hin;
  repeat (destruct Hin as [<- | Hin]; [cbv in Hh; intuition discriminate |]);
  exact Hin.

Lemma checkWinner_outcome_witness :
  checkWinner [Mark X; Mark O; Mark O; Null; Mark X; Null; Null; Null; Mark X]
    = Some (Win X)
  /\ checkWinner [Mark X; Mark O; Mark X; Mark X; Mark O; Mark O;
                  Mark O; Mark X; Mark X] = Some Draw
  /\ checkWinner [Mark X; Mark O; Null; Null; Null; Null; Null; Null; Null]
    = None.
Proof.
  split; [| split].
  - apply checkWinner_outcome.
    + apply nine_cells_check; reflexivity.
    + exists (0, 4, 8). split; [cbv; tauto | cbv; auto].
    + no_line.
  - apply checkWinner_outcome.
    + apply nine_cells_check; reflexivity.
    + intros []; no_line.
    + intros i Hi. do 9 (destruct i as [|i]; [cbv; eauto |]). lia.
  - apply checkWinner_outcome.
    + apply nine_cells_check; reflexivity.
    + intros []; no_line.
    + intros H. destruct (H 2) as [p Hp]; [lia | discriminate].
Defined.

(** C9. [checkWinner] is a total function, and its answer is fixed by the
    order of [winningCombinations]: whatever else the board holds, also when
    both marks fill a line, it returns the mark of the first filled line in
    the order rows [0,1,2], [3,4,5], [6,7,8], columns [0,3,6], [1,4,7],
    [2,5,8], diagonals [0,4,8], [2,4,6]. *)
Theorem checkWinner_first_line squares pre l post m :
  winningCombinations = pre ++ l :: post ->
  (forall l' m', In l' pre -> ~ holds squares m' l') ->
  holds squares m l ->
  checkWinner squares = Some (Win m).
Proof.
  intros Heq Hpre Hm. unfold checkWinner.
  assert (first_line squares winningCombinations = Some (Mark m)) as ->;
    [| reflexivity].
  apply first_line_some. exists pre, l, post, m.
  split; [exact Heq |]. split; [| split; [exact Hm | reflexivity]].
  intros l' Hl. destruct (line_complete squares l') eqn:E; [| reflexivity].
  apply line_complete_holds in E as [m' Hm']. destruct (Hpre l' m' Hl Hm').
Qed.

Lemma checkWinner_first_line_witness :
  let tampered :=
    [Mark X; Mark O; Null; Mark X; Mark X; Mark X; Mark O; Mark O; Mark O] in
  completes tampered X /\ completes tampered O
  /\ checkWinner tampered = Some (Win X).
Proof.
  intros tampered. split; [| split].
  - exists (3, 4, 5). split; [cbv; tauto | cbv; auto].
  - exists (6, 7, 8). split; [cbv; tauto | cbv; auto].
  - apply (checkWinner_first_line tampered [(0, 1, 2)] (3, 4, 5)
             [(6, 7, 8); (0, 3, 6); (1, 4, 7); (2, 5, 8); (0, 4, 8); (2, 4, 6)]).
    + reflexivity.
    + intros l' m' [<- | []] H. cbv in H. intuition discriminate.
    + cbv. auto.
Defined.

(** ** handleClick *)

Lemma get_array_set arr i v : get (array_set arr i v) i = v.
Proof.
  unfold get. revert i. induction arr as [|h t IH]; intros i.
  - induction i as [|i IHi]; [reflexivity | exact IHi].
  - destruct i as [|i]; [reflexivity | apply IH].
Qed.

Lemma is_online_true s : is_online s = true <-> gameMode s = Some online.
Proof. unfold is_online. apply bool_decide_eq_true. Qed.




Lemma handleClick_accepted c db index now :
  click_ignored (app c) index = false ->
  handleClick c db index now =
    (mkClient (apply_click (app c) index now) (session c),
     push c (click_patch (app c) index) db).
Proof. intros H. unfold handleClick. rewrite H. reflexivity. Qed.

Lemma click_accepted_no_winner s index :
  click_ignored s index = false -> winner s = None.
Proof.
  unfold click_ignored. rewrite !orb_false_iff. intros [[[_ H] _] _].
  apply bool_decide_eq_false in H. destruct (winner s); [| reflexivity].
  destruct H. discriminate.
Qed.

Lemma click_ignored_winner s index :
  winner s <> None -> click_ignored s index = true.
Proof.
  intros H. unfold click_ignored. rewrite (bool_decide_eq_true_2 _ H).
  rewrite orb_true_r. reflexivity.
Qed.

Lemma marks_placed_finished c db clicks :
  winner (app c) <> None -> marks_placed c db clicks = [].
Proof.
  intros H. induction clicks as [|[index now] rest IH]; [reflexivity |].
  cbn [marks_placed]. unfold handleClick.
  rewrite (click_ignored_winner _ index H). exact IH.
Qed.

Lemma marks_placed_alternate clicks : forall c db,
  marks_placed c db clicks =
  alternating (currentPlayer (app c)) (List.length (marks_placed c db clicks)).
Proof.
  induction clicks as [|[index now] rest IH]; intros c db; [reflexivity |].
  cbn [marks_placed]. unfold handleClick.
  destruct (click_ignored (app c) index) eqn:E; [apply IH |].
  cbn [List.length alternating]. f_equal.
  pose proof (click_accepted_no_winner _ _ E) as Hw.
  unfold apply_click.
  destruct (checkWinner (array_set (board (app c)) index
                           (Mark (currentPlayer (app c))))) as [w|] eqn:Ew.
  - rewrite marks_placed_finished; [reflexivity | discriminate].
  - match goal with |- marks_placed ?c' ?db' rest = _ =>
      rewrite (IH c' db') at 1 end.
    reflexivity.
Qed.

(** C5. An accepted click writes the current player's mark; if it produces
    no outcome the current player flips (X to O, O to X), if it produces one
    the current player stays.  Hence, when X is to move first, the marks
    written by any sequence of clicks are X, O, X, O, ...  (That the board
    starts empty is not needed.) *)
Theorem turns_alternate c db :
  currentPlayer (app c) = X ->
  (forall c0 db0 index now,
     click_ignored (app c0) index = false ->
     let c1 := fst (handleClick c0 db0 index now) in
     get (board (app c1)) index = Mark (currentPlayer (app c0))
     /\ (winner (app c1) = None ->
         currentPlayer (app c1) = other (currentPlayer (app c0)))
     /\ (winner (app c1) <> None ->
         currentPlayer (app c1) = currentPlayer (app c0)))
  /\ (forall clicks,
        marks_placed c db clicks =
        alternating X (List.length (marks_placed c db clicks))).
Proof.
  intros HX. split.
  - intros c0 db0 index now E. rewrite (handleClick_accepted _ _ _ _ E).
    cbn [fst app]. pose proof (click_accepted_no_winner _ _ E) as Hw.
    unfold apply_click.
    destruct (checkWinner (array_set (board (app c0)) index
                             (Mark (currentPlayer (app c0))))) as [w|];
      cbn [board winner currentPlayer].
    + split; [apply get_array_set |]. split; [discriminate | reflexivity].
    + split; [apply get_array_set |]. split; [reflexivity |].
      intros H. destruct (H Hw).
  - intros clicks. rewrite <- HX. apply marks_placed_alternate.
Qed.

Lemma turns_alternate_witness :
  marks_placed (mkClient (setGameMode local initial_state) None) ∅
    [(0, 0%Z); (0, 1%Z); (4, 2%Z); (8, 3%Z); (1, 4%Z)] = [X; O; X; O].
Proof.
  rewrite (proj2 (turns_alternate
             (mkClient (setGameMode local initial_state) None) ∅ eq_refl)).
  reflexivity.
Defined.

(** ** The table under the policies *)

(** What an [update] can do: nothing, or replace the row stored under
    [code] by its patched version; the latter only for a signed-in caller
    who is the row's host or guest and whose filter accepts the row. *)
Lemma update_cases session code cond p (db : gmap string GameRooms.row) :
  GameRooms.update session code cond p db = (db, None)
  \/ exists uid r,
       session = Some uid /\ db !! code = Some r
       /\ GameRooms.update_using uid r = true /\ cond r = true
       /\ GameRooms.update session code cond p db =
            (<[code := GameRooms.apply_patch p r]> db,
             Some (GameRooms.apply_patch p r)).
Proof.
  unfold GameRooms.update.
  destruct session as [uid|]; [| left; reflexivity].
  destruct (db !! code) as [r|] eqn:Hr; [| left; reflexivity].
  destruct (GameRooms.select_using uid r); [| left; reflexivity].
  destruct (GameRooms.update_using uid r) eqn:Hu; [| left; reflexivity].
  destruct (cond r) eqn:Hc; [| left; reflexivity]. cbn [andb].
  destruct (GameRooms.update_check uid (GameRooms.apply_patch p r)
            && GameRooms.select_using uid (GameRooms.apply_patch p r));
    [| left; reflexivity].
  right. exists uid, r. auto.
Qed.

Lemma update_using_select uid r :
  GameRooms.update_using uid r = true -> GameRooms.select_using uid r = true.
Proof.
  unfold GameRooms.update_using, GameRooms.select_using. intros ->. reflexivity.
Qed.

(** A patch that leaves [guest_id] alone keeps host and guest, so a row the
    caller may update passes [WITH CHECK] after the update. *)
Lemma update_applies uid code cond p (db : gmap string GameRooms.row) r :
  db !! code = Some r ->
  GameRooms.update_using uid r = true ->
  cond r = true ->
  GameRooms.set_guest_id p = None ->
  GameRooms.update (Some uid) code cond p db =
    (<[code := GameRooms.apply_patch p r]> db,
     Some (GameRooms.apply_patch p r)).
Proof.
  intros Hr Hu Hc Hg. unfold GameRooms.update. rewrite Hr.
  rewrite (update_using_select _ _ Hu), Hu, Hc. cbn [andb].
  assert (GameRooms.update_using uid (GameRooms.apply_patch p r) = true) as Hu'.
  { unfold GameRooms.update_using, GameRooms.apply_patch in *.
    cbn [GameRooms.host_id GameRooms.guest_id]. rewrite Hg. exact Hu. }
  unfold GameRooms.update_check.
  unfold GameRooms.update_using in Hu'. rewrite Hu'.
  change (bool_decide (uid = GameRooms.host_id (GameRooms.apply_patch p r))
          || bool_decide (GameRooms.guest_id (GameRooms.apply_patch p r) = Some uid))
    with (GameRooms.update_using uid (GameRooms.apply_patch p r)) in Hu'.
  rewrite (update_using_select _ _ Hu'). reflexivity.
Qed.

Lemma update_other session code cond p (db : gmap string GameRooms.row) code' :
  code' <> code ->
  fst (GameRooms.update session code cond p db) !! code' = db !! code'.
Proof.
  intros Hne.
  destruct (update_cases session code cond p db)
    as [-> | (uid & r & _ & _ & _ & _ & ->)]; [reflexivity |].
  cbn [fst]. apply lookup_insert_ne. congruence.
Qed.

Lemma update_preserves (P : GameRooms.row -> Prop) session code cond p
    (db : gmap string GameRooms.row) :
  (forall r, P r -> cond r = true -> P (GameRooms.apply_patch p r)) ->
  (forall k r, db !! k = Some r -> P r) ->
  forall k r, fst (GameRooms.update session code cond p db) !! k = Some r -> P r.
Proof.
  intros Hp Hdb k r'.
  destruct (update_cases session code cond p db)
    as [-> | (uid & r & _ & Hr & _ & Hc & ->)]; [apply Hdb |].
  cbn [fst]. rewrite lookup_insert. case_decide as Hk.
  - intros [= <-]. apply Hp; [eapply Hdb; eauto | exact Hc].
  - apply Hdb.
Qed.

Lemma push_other c p (db : gmap string GameRooms.row) code' :
  push_target (app c) <> Some code' -> push c p db !! code' = db !! code'.
Proof.
  unfold push. intros H. destruct (push_target (app c)) as [code|];
    [| reflexivity].
  apply update_other. congruence.
Qed.

Lemma push_applies c p (db : gmap string GameRooms.row) code uid r :
  push_target (app c) = Some code ->
  session c = Some uid ->
  db !! code = Some r ->
  GameRooms.update_using uid r = true ->
  GameRooms.set_guest_id p = None ->
  push c p db = <[code := GameRooms.apply_patch p r]> db.
Proof.
  intros Ht Hs Hr Hu Hg. unfold push. rewrite Ht, Hs.
  rewrite (update_applies uid code _ p db r Hr Hu eq_refl Hg). reflexivity.
Qed.

Lemma to_json_id (b : Board) :
  Forall (fun c => c <> Undef) b -> to_json b = b.
Proof.
  induction 1 as [|c b Hc _ IH]; [reflexivity |].
  cbn [to_json map]. fold (to_json b). rewrite IH.
  destruct c; congruence.
Qed.

Lemma array_set_in_range (b : Board) i v :
  i < List.length b -> v <> Undef ->
  Forall (fun c => c <> Undef) b ->
  Forall (fun c => c <> Undef) (array_set b i v).
Proof.
  intros Hi Hv Hb. revert i Hi. induction Hb as [|c b Hc Hb IH]; intros i Hi.
  - simpl in Hi. lia.
  - destruct i as [|i]; cbn [array_set].
    + constructor; assumption.
    + constructor; [assumption |]. apply IH. simpl in Hi. lia.
Qed.

(** ** What a move writes to the room *)

Lemma click_patch_keeps_guest s index :
  GameRooms.set_guest_id (click_patch s index) = None.
Proof.
  unfold click_patch. destruct (checkWinner _); reflexivity.
Qed.

(** C4 (amended). Online, an accepted move by a participant of the room
    writes the new board to the room.  If the move ends the game it also
    writes the winner and status [finished], and leaves [current_player] as
    it was; otherwise it writes the flipped [current_player] and leaves
    [winner] and [status] as they were.  So the row agrees with the local
    turn and winner after the move if it agreed with them before. *)
Theorem handleClick_push c db index now code uid r :
  click_ignored (app c) index = false ->
  push_target (app c) = Some code ->
  session c = Some uid ->
  db !! code = Some r ->
  GameRooms.update_using uid r = true ->
  let c' := fst (handleClick c db index now) in
  let db' := snd (handleClick c db index now) in
  exists r',
    db' !! code = Some r'
    /\ GameRooms.board r' = to_json (board (app c'))
    /\ (index < List.length (board (app c)) ->
        Forall (fun x => x <> Undef) (board (app c)) ->
        GameRooms.board r' = board (app c'))
    /\ match winner (app c') with
       | Some w =>
           GameRooms.winner r' = Some w
           /\ GameRooms.status r' = finished
           /\ GameRooms.current_player r' = GameRooms.current_player r
       | None =>
           GameRooms.current_player r' = currentPlayer (app c')
           /\ GameRooms.winner r' = GameRooms.winner r
           /\ GameRooms.status r' = GameRooms.status r
       end
    /\ (GameRooms.current_player r = currentPlayer (app c) ->
        GameRooms.winner r = winner (app c) ->
        GameRooms.current_player r' = currentPlayer (app c')
        /\ GameRooms.winner r' = winner (app c')).
Proof.
  intros E Ht Hs Hr Hu. cbv zeta. rewrite (handleClick_accepted _ _ _ _ E).
  cbn [fst snd app].
  rewrite (push_applies c _ db code uid r Ht Hs Hr Hu
             (click_patch_keeps_guest _ _)).
  eexists. split; [apply lookup_insert_eq |].
  pose proof (click_accepted_no_winner _ _ E) as Hw.
  unfold click_patch, apply_click.
  set (newBoard := array_set (board (app c)) index (Mark (currentPlayer (app c)))).
  assert (index < List.length (board (app c)) ->
          Forall (fun x => x <> Undef) (board (app c)) ->
          to_json newBoard = newBoard) as Hjson.
  { intros Hi Hb. apply to_json_id, array_set_in_range; auto; discriminate. }
  destruct (checkWinner newBoard) as [w|];
    cbn [GameRooms.apply_patch finish_patch turn_patch default
         GameRooms.set_board GameRooms.set_winner GameRooms.set_status
         GameRooms.set_current_player GameRooms.board GameRooms.winner
         GameRooms.status GameRooms.current_player
         board winner currentPlayer].
  - split; [reflexivity |]. split; [exact Hjson |]. split; [auto |].
    intros Hcp _. auto.
  - rewrite Hw. split; [reflexivity |]. split; [exact Hjson |].
    split; [auto |]. intros _ Hwin. rewrite Hwin. auto.
Qed.

Lemma handleClick_push_witness :
  exists r',
    snd (handleClick (fst host_in_room) (snd host_in_room) 4 0) !! "AB12CD"
      = Some r'
    /\ GameRooms.board r' =
         [Null; Null; Null; Null; Mark X; Null; Null; Null; Null]
    /\ GameRooms.current_player r' = O.
Proof.
  destruct (handleClick_push (fst host_in_room) (snd host_in_room) 4 0
              "AB12CD" "host"
              (GameRooms.mkRow "host" None empty_board X None waiting))
    as (r' & Hr' & Hb & _ & Hm & _); try reflexivity.
  exists r'. split; [exact Hr' |]. split; [exact Hb |]. apply Hm.
Defined.

(** C4, as stated, fails: the update of a move does not carry all four
    columns.  The host's first move in a freshly created room is accepted
    and sets neither [winner] nor [status]; the room stays [waiting].  The
    status left in the row is the one it had before, whatever that was: from
    the same local state, a row that was [playing] stays [playing]. *)
Lemma handleClick_push_partial :
  let c := fst host_in_room in
  let db := snd host_in_room in
  let db2 := <["AB12CD" :=
               GameRooms.mkRow "host" (Some "guest") empty_board X None playing]> db in
  click_ignored (app c) 4 = false
  /\ GameRooms.set_winner (click_patch (app c) 4) = None
  /\ GameRooms.set_status (click_patch (app c) 4) = None
  /\ GameRooms.status <$> (snd (handleClick c db 4 0) !! "AB12CD") = Some waiting
  /\ GameRooms.status <$> (snd (handleClick c db2 4 0) !! "AB12CD") = Some playing.
Proof.
  cbv zeta. repeat split; vm_compute; reflexivity.
Qed.

(** ** Status and winner of a room *)

Lemma insert_consistent session code host b cp
    (db db' : gmap string GameRooms.row) :
  rooms_consistent db ->
  GameRooms.insert session code host b cp db = Some db' ->
  rooms_consistent db'.
Proof.
  unfold GameRooms.insert. intros Hdb H.
  destruct session; [| discriminate].
  destruct (db !! code) eqn:Hc; [discriminate |]. injection H as <-.
  intros k r. rewrite lookup_insert. case_decide.
  - intros [= <-]. unfold row_consistent. cbn.
    split; [discriminate | congruence].
  - apply Hdb.
Qed.

Lemma push_consistent c p (db : gmap string GameRooms.row) :
  (forall r, row_consistent r -> row_consistent (GameRooms.apply_patch p r)) ->
  rooms_consistent db -> rooms_consistent (push c p db).
Proof.
  intros Hp Hdb. unfold push. destruct (push_target (app c)); [| exact Hdb].
  unfold rooms_consistent. apply (update_preserves row_consistent); auto.
Qed.

Lemma click_patch_consistent s index r :
  row_consistent r ->
  row_consistent (GameRooms.apply_patch (click_patch s index) r).
Proof.
  unfold click_patch, row_consistent.
  destruct (checkWinner _); cbn; [| tauto].
  intros _. split; [discriminate | reflexivity].
Qed.

Lemma reset_patch_consistent r :
  row_consistent (GameRooms.apply_patch reset_patch r).
Proof. unfold row_consistent. cbn. split; [discriminate | congruence]. Qed.

Lemma join_consistent uid code (db : gmap string GameRooms.row) :
  rooms_consistent db ->
  rooms_consistent
    (fst (GameRooms.update (Some uid) code join_filter (join_patch uid) db)).
Proof.
  intros Hdb. unfold rooms_consistent.
  apply (update_preserves row_consistent); [| exact Hdb].
  intros r Hr Hf. unfold join_filter in Hf.
  apply andb_true_iff in Hf as [Hs _]. apply bool_decide_eq_true in Hs.
  unfold row_consistent in *. cbn. split; [discriminate |].
  intros Hw. apply Hr in Hw. congruence.
Qed.

Lemma step_consistent ev w :
  rooms_consistent (snd w) -> rooms_consistent (snd (step ev w)).
Proof.
  destruct w as [c db]. cbn [snd]. intros Hdb.
  destruct ev as [mode | text | user raw | user | index now | | payload];
    cbn [step snd]; try exact Hdb.
  - unfold createRoom. destruct user as [uid|]; [| exact Hdb].
    destruct (GameRooms.insert _ _ _ _ _ _) as [db'|] eqn:E; [| exact Hdb].
    cbn [snd]. eapply insert_consistent; eauto.
  - unfold joinRoom. destruct (negb _); [exact Hdb |].
    destruct user as [uid|]; [| exact Hdb].
    pose proof (join_consistent uid (toUpperCase (joinCode (app c))) db Hdb) as H.
    destruct (GameRooms.update _ _ _ _ _) as [db' [room|]]; exact H.
  - unfold handleClick. destruct (click_ignored _ _); [exact Hdb |].
    cbn [snd]. apply push_consistent; [| exact Hdb].
    intros r. apply click_patch_consistent.
  - apply push_consistent; [| exact Hdb].
    intros r _. apply reset_patch_consistent.
Qed.

(** C6. In every table reached by a participant's operations (choosing a
    mode, typing a code, creating or joining a room, clicking, resetting,
    receiving a broadcast) from a table in which it holds, a room's status
    is [finished] if and only if its winner is set.  The operations write
    the two columns together: the room [createRoom] inserts is [waiting]
    with a null winner; an accepted click of a participant that yields a
    winner or a draw leaves the room [finished] with that winner, any other
    accepted click leaves status and winner as they were; [resetGame]
    leaves the room [playing] with a null winner. *)
Theorem status_finished_iff_winner evs c db :
  rooms_consistent db ->
  rooms_consistent (snd (run evs (c, db)))
  /\ (forall c0 db0 uid raw,
        db0 !! new_room_code raw = None ->
        exists r1,
          snd (createRoom c0 db0 (Some uid) raw) !! new_room_code raw = Some r1
          /\ GameRooms.status r1 = waiting /\ GameRooms.winner r1 = None)
  /\ (forall c0 db0 index now code uid r,
        click_ignored (app c0) index = false ->
        push_target (app c0) = Some code ->
        session c0 = Some uid ->
        db0 !! code = Some r ->
        GameRooms.update_using uid r = true ->
        exists r1,
          snd (handleClick c0 db0 index now) !! code = Some r1
          /\ (winner (app (fst (handleClick c0 db0 index now))) <> None ->
              GameRooms.status r1 = finished
              /\ GameRooms.winner r1
                 = winner (app (fst (handleClick c0 db0 index now))))
          /\ (winner (app (fst (handleClick c0 db0 index now))) = None ->
              GameRooms.status r1 = GameRooms.status r
              /\ GameRooms.winner r1 = GameRooms.winner r))
  /\ (forall c0 db0 code uid r,
        push_target (app c0) = Some code ->
        session c0 = Some uid ->
        db0 !! code = Some r ->
        GameRooms.update_using uid r = true ->
        exists r1,
          snd (resetGame c0 db0) !! code = Some r1
          /\ GameRooms.status r1 = playing /\ GameRooms.winner r1 = None).
Proof.
  intros Hdb. split; [| split; [| split]].
  - unfold run. change db with (snd (c, db)) in Hdb.
    generalize dependent (c, db). induction evs as [|ev evs IH]; intros w Hw.
    + exact Hw.
    + cbn [foldl]. apply IH, step_consistent, Hw.
  - intros c0 db0 uid raw Hfree. eexists. split.
    + unfold createRoom, GameRooms.insert. rewrite Hfree. cbn [snd].
      apply lookup_insert_eq.
    + split; reflexivity.
  - intros c0 db0 index now code uid r E Ht Hs Hr Hu.
    rewrite (handleClick_accepted _ _ _ _ E). cbn [fst snd app].
    rewrite (push_applies c0 _ db0 code uid r Ht Hs Hr Hu
               (click_patch_keeps_guest _ _)).
    eexists. split; [apply lookup_insert_eq |].
    pose proof (click_accepted_no_winner _ _ E) as Hw.
    unfold click_patch, apply_click.
    destruct (checkWinner _) as [w|]; cbn.
    + split; [auto |]. discriminate.
    + rewrite Hw. split; [intros H; destruct H; reflexivity | auto].
  - intros c0 db0 code uid r Ht Hs Hr Hu. unfold resetGame. cbn [snd].
    rewrite (push_applies c0 reset_patch db0 code uid r Ht Hs Hr Hu eq_refl).
    eexists. split; [apply lookup_insert_eq |]. split; reflexivity.
Qed.

Lemma status_finished_iff_winner_witness :
  let game :=
    [ChooseMode online; CreateRoom (Some "host") "ab12cd"; Click 0 0;
     Broadcast (mkPayload [Mark X; Null; Null; Mark O; Null; Null;
                           Null; Null; Null] X None);
     Click 1 1;
     Broadcast (mkPayload [Mark X; Mark X; Null; Mark O; Mark O; Null;
                           Null; Null; Null] X None);
     Click 2 2] in
  let db1 := snd (run game (mkClient initial_state None, ∅)) in
  let db2 := snd (run (game ++ [ResetGame]) (mkClient initial_state None, ∅)) in
  (GameRooms.status <$> db1 !! "AB12CD" = Some finished
   /\ GameRooms.winner <$> db1 !! "AB12CD" = Some (Some (Win X))
   /\ rooms_consistent db1)
  /\ (GameRooms.status <$> db2 !! "AB12CD" = Some playing
      /\ GameRooms.winner <$> db2 !! "AB12CD" = Some None
      /\ rooms_consistent db2).
Proof.
  intros game db1 db2.
  assert (rooms_consistent ∅) as Hempty.
  { intros code r H. rewrite lookup_empty in H. discriminate. }
  split; (split; [reflexivity |]; split; [reflexivity |]).
  - apply (proj1 (status_finished_iff_winner game
                    (mkClient initial_state None) ∅ Hempty)).
  - apply (proj1 (status_finished_iff_winner (game ++ [ResetGame])
                    (mkClient initial_state None) ∅ Hempty)).
Defined.

(** ** resetGame *)

(** C10. From any state [resetGame] sets the board to nine empty cells, the
    current player to X, the winner to null and the move count to 0, and
    leaves the players (names and scores), the history and every other part
    of the state as they were.  Online, for a participant of the room, it
    writes the empty board, X, a null winner and status [playing] to the
    room, whatever the room held before, and touches no other room. *)
Theorem resetGame_spec c db :
  let c' := fst (resetGame c db) in
  let db' := snd (resetGame c db) in
  (board (app c') = replicate 9 Null
   /\ currentPlayer (app c') = X
   /\ winner (app c') = None
   /\ moveCount (app c') = 0
   /\ players (app c') = players (app c)
   /\ gameHistory (app c') = gameHistory (app c)
   /\ gameMode (app c') = gameMode (app c)
   /\ onlineGame (app c') = onlineGame (app c)
   /\ session c' = session c)
  /\ (forall code uid r,
        gameMode (app c) = Some online ->
        online_room (app c) = Some code ->
        session c = Some uid ->
        db !! code = Some r ->
        GameRooms.update_using uid r = true ->
        db' !! code =
          Some {| GameRooms.host_id := GameRooms.host_id r;
                  GameRooms.guest_id := GameRooms.guest_id r;
                  GameRooms.board := replicate 9 Null;
                  GameRooms.current_player := X;
                  GameRooms.winner := None;
                  GameRooms.status := playing |})
  /\ (forall code,
        push_target (app c) <> Some code -> db' !! code = db !! code).
Proof.
  cbv zeta. unfold resetGame. cbn [fst snd app session].
  split; [repeat split |]. split.
  - intros code uid r Hm Hroom Hs Hr Hu.
    assert (push_target (app c) = Some code) as Ht.
    { unfold push_target. apply is_online_true in Hm. rewrite Hm. exact Hroom. }
    rewrite (push_applies c reset_patch db code uid r Ht Hs Hr Hu eq_refl).
    rewrite lookup_insert_eq. reflexivity.
  - intros code. apply push_other.
Qed.

Lemma resetGame_spec_witness :
  let w := step (Click 4 0) host_in_room in
  GameRooms.status <$> (snd w !! "AB12CD") = Some waiting
  /\ snd (resetGame (fst w) (snd w)) !! "AB12CD" =
       Some (GameRooms.mkRow "host" None (replicate 9 Null) X None playing).
Proof.
  intros w. split; [reflexivity |].
  apply (proj1 (proj2 (resetGame_spec (fst w) (snd w))) "AB12CD" "host"
           (GameRooms.mkRow "host" None
              [Null; Null; Null; Null; Mark X; Null; Null; Null; Null]
              O None waiting));
    reflexivity.
Defined.

(** ** joinRoom *)

(** The two ways [joinRoom] can end once a code is typed and the sign-up
    returned a user: the room is updated (it existed under the upper-cased
    code, was [waiting] without a guest, and the policies let the caller
    update it) and the participant is connected as guest; or nothing is
    written and only [errorMessage] reports the failure. *)
Lemma joinRoom_cases c db uid :
  nonempty (joinCode (app c)) = true ->
  let code := toUpperCase (joinCode (app c)) in
  (exists r,
     db !! code = Some r
     /\ GameRooms.status r = waiting /\ GameRooms.guest_id r = None
     /\ GameRooms.update_using uid r = true
     /\ joinRoom c db (Some uid) =
          (mkClient (set_connected code false uid (app c)) (Some uid),
           <[code := GameRooms.apply_patch (join_patch uid) r]> db))
  \/ joinRoom c db (Some uid) =
       (mkClient (set_error "Failed to join room" (app c)) (Some uid), db).
Proof.
  intros Hne code. unfold joinRoom. rewrite Hne. cbn [negb]. fold code.
  destruct (update_cases (Some uid) code join_filter (join_patch uid) db)
    as [-> | (uid' & r & [= <-] & Hr & Hu & Hf & ->)]; [right; reflexivity |].
  left. exists r. unfold join_filter in Hf.
  apply andb_true_iff in Hf as [Hs Hg].
  apply bool_decide_eq_true in Hs, Hg. auto 6.
Qed.

(** The update policy admits only the host and the guest of a row, and a
    [waiting] row has no guest: nobody but its host can join a room. *)
Lemma joinRoom_needs_host c db uid :
  (forall code r, db !! code = Some r -> GameRooms.host_id r <> uid) ->
  snd (joinRoom c db (Some uid)) = db.
Proof.
  intros Hhost. destruct (nonempty (joinCode (app c))) eqn:Hne.
  - destruct (joinRoom_cases c db uid Hne)
      as [(r & Hr & _ & Hg & Hu & _) | ->]; [| reflexivity].
    unfold GameRooms.update_using in Hu. rewrite Hg in Hu.
    apply orb_true_iff in Hu as [Hu | Hu]; apply bool_decide_eq_true in Hu.
    + destruct (Hhost _ _ Hr). congruence.
    + discriminate.
  - unfold joinRoom. rewrite Hne. reflexivity.
Qed.

(** A room that was joined is [playing], so a later join of the same code
    is refused whoever attempts it. *)
Lemma joinRoom_once c db uid c2 uid2 :
  nonempty (joinCode (app c)) = true ->
  snd (joinRoom c db (Some uid)) <> db ->
  toUpperCase (joinCode (app c2)) = toUpperCase (joinCode (app c)) ->
  snd (joinRoom c2 (snd (joinRoom c db (Some uid))) (Some uid2))
  = snd (joinRoom c db (Some uid)).
Proof.
  intros Hne Hch Hcode.
  destruct (joinRoom_cases c db uid Hne)
    as [(r & Hr & _ & _ & _ & Heq) | Heq]; rewrite Heq in *;
    [| destruct Hch; reflexivity].
  cbn [snd]. destruct (nonempty (joinCode (app c2))) eqn:Hne2.
  - destruct (joinRoom_cases c2
                (<[toUpperCase (joinCode (app c)) :=
                   GameRooms.apply_patch (join_patch uid) r]> db) uid2 Hne2)
      as [(r2 & Hr2 & Hs2 & _) | ->]; [| reflexivity].
    rewrite Hcode, lookup_insert_eq in Hr2. injection Hr2 as <-.
    discriminate.
  - unfold joinRoom. rewrite Hne2. reflexivity.
Qed.

(** C3, the code at the failing input.  The host's room AB12CD exists, is
    [waiting] and has no guest, yet another participant's join changes
    nothing and ends in the error message: the update policy
    ([auth.uid() = host_id OR auth.uid() = guest_id]) hides the row from
    every caller who is not yet part of it. *)
Theorem joinRoom_waiting_room_refused :
  let db := snd host_in_room in
  db !! "AB12CD" = Some (GameRooms.mkRow "host" None empty_board X None waiting)
  /\ joinCode (app guest_typed) = "AB12CD"
  /\ snd (joinRoom guest_typed db (Some "guest")) = db
  /\ (errorMessage <$> onlineGame (app (fst (joinRoom guest_typed db (Some "guest")))))
     = Some (Some "Failed to join room")
  /\ online_connected (app (fst (joinRoom guest_typed db (Some "guest")))) = false.
Proof.
  cbv zeta. repeat split; vm_compute; reflexivity.
Qed.

(** ** Room codes *)

Lemma upper_char_idem c : upper_char (upper_char c) = upper_char c.
Proof. destruct c as [[] [] [] [] [] [] [] []]; reflexivity. Qed.

Lemma toUpperCase_idem s : toUpperCase (toUpperCase s) = toUpperCase s.
Proof.
  induction s as [|c s IH]; [reflexivity |].
  cbn [toUpperCase]. rewrite upper_char_idem, IH. reflexivity.
Qed.

Lemma is_lower_spec c :
  is_lower c = true <-> (97 <= nat_of_ascii c <= 122)%nat.
Proof.
  unfold is_lower. rewrite andb_true_iff, !Nat.leb_le. reflexivity.
Qed.

Lemma upper_of_lower c d :
  is_lower c = true -> (nat_of_ascii d + 32 = nat_of_ascii c)%nat ->
  upper_char c = d /\ upper_char d = d.
Proof.
  intros Hc Hd. unfold upper_char. rewrite Hc.
  replace (nat_of_ascii c - 32)%nat with (nat_of_ascii d) by lia.
  rewrite ascii_nat_embedding. split; [reflexivity |].
  destruct (is_lower d) eqn:Hl; [| reflexivity].
  apply is_lower_spec in Hc, Hl. lia.
Qed.

Lemma same_letter_upper c d :
  same_letter c d = true -> upper_char c = upper_char d.
Proof.
  unfold same_letter. rewrite !orb_true_iff, !andb_true_iff.
  rewrite !bool_decide_eq_true.
  intros [[-> | [Hc Hd]] | [Hd Hc]]; [reflexivity | |].
  - destruct (upper_of_lower c d Hc Hd) as [-> ->]. reflexivity.
  - destruct (upper_of_lower d c Hd Hc) as [-> ->]. reflexivity.
Qed.

Lemma differs_only_in_case_upper s : forall t,
  differs_only_in_case s t = true ->
  toUpperCase s = toUpperCase t /\ nonempty s = nonempty t.
Proof.
  induction s as [|c s IH]; intros [|d t]; cbn; try discriminate; [auto |].
  rewrite andb_true_iff. intros [Hcd Hst].
  rewrite (same_letter_upper _ _ Hcd). destruct (IH t Hst) as [-> _]. auto.
Qed.

(** [createRoom] with a signed-up user and an unused code stores a
    [waiting] room without guest under the upper-cased [nanoid] string. *)
Lemma createRoom_stores h db uid raw :
  db !! new_room_code raw = None ->
  snd (createRoom h db (Some uid) raw) !! new_room_code raw =
    Some {| GameRooms.host_id := uid; GameRooms.guest_id := None;
            GameRooms.board := to_json (board (app h));
            GameRooms.current_player := currentPlayer (app h);
            GameRooms.winner := None; GameRooms.status := waiting |}.
Proof.
  intros Hfree. unfold createRoom, GameRooms.insert. rewrite Hfree.
  cbn [snd]. apply lookup_insert_eq.
Qed.

Lemma nanoid_nonempty raw : nanoid_result 6 raw -> nonempty raw = true.
Proof. intros [Hlen _]. destruct raw; [discriminate | reflexivity]. Qed.

Lemma joinRoom_same_upper c c' db user :
  toUpperCase (joinCode (app c)) = toUpperCase (joinCode (app c')) ->
  nonempty (joinCode (app c)) = nonempty (joinCode (app c')) ->
  onlineGame (app c) = onlineGame (app c') ->
  session c = session c' ->
  snd (joinRoom c db user) = snd (joinRoom c' db user)
  /\ onlineGame (app (fst (joinRoom c db user)))
     = onlineGame (app (fst (joinRoom c' db user)))
  /\ session (fst (joinRoom c db user)) = session (fst (joinRoom c' db user)).
Proof.
  intros Hup Hne Hog Hs. unfold joinRoom. rewrite Hup, Hne.
  destruct (negb (nonempty (joinCode (app c')))); [auto |].
  destruct user as [uid|].
  - destruct (GameRooms.update _ _ _ _ _) as [db' [room|]]; cbn; auto.
    rewrite Hog. auto.
  - cbn. rewrite Hog. auto.
Qed.

(** C7. A code typed at the join field that differs from a room's stored
    code only in letter case addresses that room.  The room [createRoom]
    stores lies under the upper-cased [nanoid] string, which is also what
    the typed code is upper-cased to; so the join is decided by that very
    row: a caller its update policy admits gets its [guest_id] and status
    rewritten and is connected to the stored code, any other caller is
    refused with the row intact; no other room is touched, and the join
    behaves exactly as if the stored code itself had been typed. *)
Theorem room_code_case_insensitive raw entered h db0 host s sess :
  nanoid_result 6 raw ->
  differs_only_in_case entered (new_room_code raw) = true ->
  db0 !! new_room_code raw = None ->
  let db := snd (createRoom h db0 (Some host) raw) in
  let c := mkClient (with_joinCode entered s) sess in
  let c0 := mkClient (with_joinCode (new_room_code raw) s) sess in
  toUpperCase entered = new_room_code raw
  /\ db !! toUpperCase entered =
       Some {| GameRooms.host_id := host; GameRooms.guest_id := None;
               GameRooms.board := to_json (board (app h));
               GameRooms.current_player := currentPlayer (app h);
               GameRooms.winner := None; GameRooms.status := waiting |}
  /\ (forall uid,
        uid = host ->
        snd (joinRoom c db (Some uid)) !! new_room_code raw =
          Some {| GameRooms.host_id := host; GameRooms.guest_id := Some uid;
                  GameRooms.board := to_json (board (app h));
                  GameRooms.current_player := currentPlayer (app h);
                  GameRooms.winner := None; GameRooms.status := playing |}
        /\ onlineGame (app (fst (joinRoom c db (Some uid)))) =
             Some {| roomCode := Some (new_room_code raw);
                     isHost := Some false; connected := Some true;
                     playerId := Some uid; errorMessage := None |})
  /\ (forall uid,
        uid <> host ->
        snd (joinRoom c db (Some uid)) = db
        /\ (errorMessage <$> onlineGame (app (fst (joinRoom c db (Some uid)))))
           = Some (Some "Failed to join room"))
  /\ (forall uid,
        snd (joinRoom c db (Some uid)) =
        fst (GameRooms.update (Some uid) (new_room_code raw) join_filter
               (join_patch uid) db))
  /\ (forall user code,
        code <> new_room_code raw ->
        snd (joinRoom c db user) !! code = db !! code)
  /\ (forall user,
        snd (joinRoom c db user) = snd (joinRoom c0 db user)
        /\ onlineGame (app (fst (joinRoom c db user)))
           = onlineGame (app (fst (joinRoom c0 db user)))
        /\ session (fst (joinRoom c db user))
           = session (fst (joinRoom c0 db user))).
Proof.
  intros Hnano Hcase Hfree. cbv zeta.
  apply differs_only_in_case_upper in Hcase as [Hup Hne].
  unfold new_room_code in *. rewrite toUpperCase_idem in Hup.
  assert (nonempty entered = true) as Hne'.
  { rewrite Hne. pose proof (nanoid_nonempty raw Hnano) as H.
    destruct raw; [discriminate | reflexivity]. }
  set (created := {| GameRooms.host_id := host; GameRooms.guest_id := None;
                     GameRooms.board := to_json (board (app h));
                     GameRooms.current_player := currentPlayer (app h);
                     GameRooms.winner := None; GameRooms.status := waiting |}).
  assert (snd (createRoom h db0 (Some host) raw)
          = <[toUpperCase raw := created]> db0) as Hdb.
  { unfold createRoom, GameRooms.insert, new_room_code. rewrite Hfree.
    reflexivity. }
  rewrite Hdb.
  assert (<[toUpperCase raw := created]> db0 !! toUpperCase raw = Some created)
    as Hrow by apply lookup_insert_eq.
  split; [exact Hup |]. split; [rewrite Hup; exact Hrow |].
  split; [| split; [| split; [| split]]].
  - intros uid ->. unfold joinRoom.
    cbn [app joinCode with_joinCode]. rewrite Hne', Hup. cbn [negb].
    unfold GameRooms.update. rewrite Hrow.
    unfold GameRooms.select_using, GameRooms.update_using,
      GameRooms.update_check, join_filter.
    cbn [created GameRooms.host_id GameRooms.guest_id GameRooms.status
         GameRooms.apply_patch join_patch GameRooms.set_guest_id
         GameRooms.set_status default].
    rewrite !(bool_decide_eq_true_2 (host = host)) by reflexivity.
    rewrite !(bool_decide_eq_true_2 (waiting = waiting)) by reflexivity.
    rewrite !(bool_decide_eq_true_2 (@None UserId = None)) by reflexivity.
    cbn [orb andb fst snd app]. split; [apply lookup_insert_eq | reflexivity].
  - intros uid Hneq.
    destruct (joinRoom_cases (mkClient (with_joinCode entered s) sess)
                (<[toUpperCase raw := created]> db0) uid Hne')
      as [(r & Hr & _ & _ & Hu & _) | ->].
    + cbn [app joinCode with_joinCode] in Hr. rewrite Hup, Hrow in Hr.
      injection Hr as <-. unfold GameRooms.update_using in Hu. cbn in Hu.
      apply orb_true_iff in Hu as [Hu | Hu]; apply bool_decide_eq_true in Hu;
        [destruct (Hneq Hu) | discriminate].
    + cbn [fst snd app]. split; [reflexivity |]. unfold set_error.
      cbn [onlineGame]. destruct (onlineGame (with_joinCode entered s));
        reflexivity.
  - intros uid. unfold joinRoom.
    cbn [app joinCode with_joinCode]. rewrite Hne', Hup. cbn [negb].
    destruct (GameRooms.update _ _ _ _ _) as [db' [room|]]; reflexivity.
  - intros user code Hcode. unfold joinRoom.
    cbn [app joinCode with_joinCode]. rewrite Hne', Hup. cbn [negb].
    destruct user as [uid|]; [| reflexivity].
    pose proof (update_other (Some uid) (toUpperCase raw) join_filter
                  (join_patch uid) (<[toUpperCase raw := created]> db0)
                  code Hcode) as Hother.
    destruct (GameRooms.update _ _ _ _ _) as [db' [room|]]; exact Hother.
  - intros user. apply joinRoom_same_upper; cbn [app joinCode with_joinCode
                                                  onlineGame session];
      [rewrite toUpperCase_idem; exact Hup | | reflexivity | reflexivity].
    rewrite Hne'. symmetry. rewrite <- Hne. exact Hne'.
Qed.

Lemma room_code_case_insensitive_witness :
  let db := snd host_in_room in
  let c := mkClient (with_joinCode "aB12cd" initial_state) None in
  toUpperCase "aB12cd" = "AB12CD"
  /\ (GameRooms.guest_id <$> snd (joinRoom c db (Some "host")) !! "AB12CD")
     = Some (Some "host")
  /\ snd (joinRoom c db (Some "guest")) = db.
Proof.
  intros db c.
  destruct (room_code_case_insensitive "ab12cd" "aB12cd"
              (mkClient (setGameMode online initial_state) None) ∅ "host"
              initial_state None)
    as (H1 & _ & H3 & H4 & _).
  - split; reflexivity.
  - reflexivity.
  - reflexivity.
  - split; [exact H1 |]. split.
    + destruct (H3 "host" eq_refl) as [Hrow _].
      change (snd (joinRoom c db (Some "host")) !! "AB12CD"
              = Some (GameRooms.mkRow "host" (Some "host") (to_json empty_board)
                        X None playing)) in Hrow.
      rewrite Hrow. reflexivity.
    + apply (H4 "guest"). discriminate.
Defined.

Lemma toUpperCase_length s : String.length (toUpperCase s) = String.length s.
Proof.
  induction s as [|c s IH]; [reflexivity |]. cbn. rewrite IH. reflexivity.
Qed.

Lemma upper_char_code_char c :
  url_safe c = true -> code_char (upper_char c) = true.
Proof.
  destruct c as [[] [] [] [] [] [] [] []]; vm_compute; intros H;
    first [reflexivity | discriminate H].
Qed.

(** C8 (amended). A room code generated by [createRoom] is exactly 6
    characters long and consists only of upper-case letters, digits, [_]
    and [-]: the characters of [nanoid]'s alphabet, upper-cased. *)
Theorem new_room_code_format raw :
  nanoid_result 6 raw ->
  String.length (new_room_code raw) = 6
  /\ string_forall code_char (new_room_code raw) = true.
Proof.
  intros [Hlen Hchars]. unfold new_room_code. split.
  - rewrite toUpperCase_length. exact Hlen.
  - clear Hlen. induction raw as [|c raw IH]; [reflexivity |].
    cbn [string_forall toUpperCase] in *.
    apply andb_true_iff in Hchars as [Hc Hraw].
    rewrite (upper_char_code_char _ Hc), (IH Hraw). reflexivity.
Qed.

Lemma new_room_code_format_witness :
  String.length (new_room_code "a_B-1c") = 6
  /\ string_forall code_char (new_room_code "a_B-1c") = true.
Proof.
  apply new_room_code_format. split; reflexivity.
Defined.

(** C8, as stated, fails: [nanoid]'s alphabet holds [_] and [-], which
    upper-casing leaves alone, so a generated code need not be
    alphanumeric. *)
Lemma new_room_code_not_alphanumeric :
  nanoid_result 6 "a_B-1c"
  /\ new_room_code "a_B-1c" = "A_B-1C"
  /\ string_forall upper_alnum (new_room_code "a_B-1c") = false.
Proof.
  split; [split; reflexivity |]. split; reflexivity.
Qed.

(** * Further properties *)

(** ** checkWinner on arbitrary boards *)

Lemma every_not_null_false squares :
  every_not_null squares = false -> In Null squares.
Proof.
  unfold every_not_null, strict_eq.
  induction squares as [|c t IH]; cbn [forallb]; [discriminate |].
  destruct (bool_decide (c = Null)) eqn:E; cbn [negb andb].
  - intros _. apply bool_decide_eq_true in E. left. exact E.
  - intros H. right. apply IH, H.
Qed.

Lemma checkWinner_win_completes squares m :
  checkWinner squares = Some (Win m) -> completes squares m.
Proof.
  unfold checkWinner.
  destruct (first_line squares winningCombinations) as [v|] eqn:E.
  - apply first_line_some in E as (pre & l & post & m' & Heq & _ & Hm & ->).
    cbn. intros [= <-]. exists l. split; [| exact Hm].
    rewrite winning_lines_table, Heq. apply in_elt.
  - destruct (every_not_null squares); discriminate.
Qed.

Lemma checkWinner_none_null squares :
  checkWinner squares = None -> In Null squares.
Proof.
  unfold checkWinner.
  destruct (first_line squares winningCombinations) as [v|] eqn:E.
  - apply first_line_some in E as (pre & l & post & m' & _ & _ & _ & ->).
    discriminate.
  - destruct (every_not_null squares) eqn:Ev; [discriminate |].
    intros _. apply every_not_null_false, Ev.
Qed.

(** X1. Whatever the board (any length, any cells), the answer of
    [checkWinner] can be trusted: a reported winner fills one of the eight
    lines; a draw means no line is filled and no cell is null; null means no
    line is filled and some cell is still null. *)
Theorem checkWinner_sound squares :
  match checkWinner squares with
  | Some (Win m) => completes squares m
  | Some Draw =>
      (forall m, ~ completes squares m) /\ Forall (fun c => c <> Null) squares
  | None => (forall m, ~ completes squares m) /\ In Null squares
  end.
Proof.
  unfold checkWinner.
  destruct (first_line squares winningCombinations) as [v|] eqn:E.
  - apply first_line_some in E as (pre & l & post & m & Heq & _ & Hm & ->).
    cbn. exists l. split; [| exact Hm].
    rewrite winning_lines_table, Heq. apply in_elt.
  - pose proof (proj1 (checkWinner_none_iff squares) E) as Hno.
    destruct (every_not_null squares) eqn:Ev.
    + split; [exact Hno |]. apply every_not_null_spec, Ev.
    + split; [exact Hno |]. apply every_not_null_false, Ev.
Qed.

Lemma get_map_swap squares i :
  get (map swap_cell squares) i = swap_cell (get squares i).
Proof.
  unfold get. revert i. induction squares as [|c t IH]; intros [|i];
    try reflexivity. apply IH.
Qed.

Lemma swap_cell_inj c d : swap_cell c = swap_cell d -> c = d.
Proof. destruct c as [| |[]], d as [| |[]]; cbn; congruence. Qed.

Lemma strict_eq_swap c d :
  strict_eq (swap_cell c) (swap_cell d) = strict_eq c d.
Proof.
  unfold strict_eq. destruct (decide (c = d)) as [-> | Hne].
  - rewrite !bool_decide_eq_true_2; reflexivity.
  - rewrite !bool_decide_eq_false_2; [reflexivity | exact Hne |].
    intros H. apply Hne, swap_cell_inj, H.
Qed.

Lemma line_complete_swap squares l :
  line_complete (map swap_cell squares) l = line_complete squares l.
Proof.
  destruct l as [[a b] c]. unfold line_complete.
  rewrite !get_map_swap, !strict_eq_swap.
  destruct (get squares a); reflexivity.
Qed.

Lemma first_line_swap squares combos :
  first_line (map swap_cell squares) combos
  = swap_cell <$> first_line squares combos.
Proof.
  induction combos as [|[[a b] c] rest IH]; cbn [first_line]; [reflexivity |].
  rewrite line_complete_swap, get_map_swap, IH.
  destruct (line_complete squares (a, b, c)); reflexivity.
Qed.

Lemma every_not_null_swap squares :
  every_not_null (map swap_cell squares) = every_not_null squares.
Proof.
  unfold every_not_null. induction squares as [|c t IH]; [reflexivity |].
  cbn [map forallb]. rewrite IH. destruct c; reflexivity.
Qed.

(** X2. The rules do not favour a mark: exchanging X and O on the board
    exchanges them in the answer of [checkWinner] and changes nothing
    else. *)
Theorem checkWinner_swap squares :
  checkWinner (map swap_cell squares) = swap_outcome <$> checkWinner squares.
Proof.
  unfold checkWinner. rewrite first_line_swap, every_not_null_swap.
  destruct (first_line squares winningCombinations) as [[| |p]|]; cbn;
    try reflexivity.
  destruct (every_not_null squares); reflexivity.
Qed.

(** ** What an accepted click does to the local state *)

Lemma get_array_set_other arr i j v :
  i <> j -> get (array_set arr i v) j = get arr j.
Proof.
  unfold get. revert i j. induction arr as [|h t IH]; intros i j Hne.
  - revert j Hne. induction i as [|i IHi]; intros [|j] Hne; cbn;
      try reflexivity; try congruence.
    + destruct j; reflexivity.
    + rewrite IHi by congruence. destruct j; reflexivity.
  - destruct i as [|i], j as [|j]; cbn; try reflexivity; try congruence.
    apply IH. congruence.
Qed.

Lemma length_array_set arr i v :
  List.length (array_set arr i v) = Nat.max (List.length arr) (S i).
Proof.
  revert i. induction arr as [|h t IH]; intros i.
  - induction i as [|i IHi]; [reflexivity |].
    cbn [array_set List.length]. rewrite IHi. cbn. lia.
  - destruct i as [|i]; cbn [array_set List.length].
    + lia.
    + rewrite IH. lia.
Qed.

Lemma click_accepted_cell_free s index :
  click_ignored s index = false -> truthy (get (board s) index) = false.
Proof.
  unfold click_ignored. rewrite !orb_false_iff. intros [[[H _] _] _]. exact H.
Qed.

Lemma apply_click_board s index now :
  board (apply_click s index now)
  = array_set (board s) index (Mark (currentPlayer s)).
Proof. unfold apply_click. destruct (checkWinner _); reflexivity. Qed.

(** X3. An accepted click changes exactly one cell: the clicked cell, which
    held no mark, now holds the current player's mark, every other cell
    reads as before, and the board keeps its length when the index is
    within it (it grows to [index + 1] cells otherwise). *)
Theorem handleClick_board c db index now :
  click_ignored (app c) index = false ->
  let b := board (app c) in
  let b' := board (app (fst (handleClick c db index now))) in
  truthy (get b index) = false
  /\ get b' index = Mark (currentPlayer (app c))
  /\ (forall j, j <> index -> get b' j = get b j)
  /\ List.length b' = Nat.max (List.length b) (S index)
  /\ (index < List.length b -> List.length b' = List.length b).
Proof.
  intros E. cbv zeta. rewrite (handleClick_accepted _ _ _ _ E).
  cbn [fst app]. rewrite apply_click_board.
  split; [apply click_accepted_cell_free, E |].
  split; [apply get_array_set |].
  split; [intros j Hj; apply get_array_set_other; congruence |].
  rewrite length_array_set. split; [reflexivity | lia].
Qed.

Lemma handleClick_board_witness :
  let c := mkClient (setGameMode local initial_state) None in
  let b' := board (app (fst (handleClick c ∅ 4 0))) in
  get b' 4 = Mark X /\ List.length b' = 9.
Proof.
  intros c b'.
  destruct (handleClick_board c ∅ 4 0 eq_refl) as (_ & H1 & _ & _ & H2).
  split; [exact H1 |]. apply H2. cbn. lia.
Defined.

Lemma handleClick_keeps_mark c db index now j p :
  get (board (app c)) j = Mark p ->
  get (board (app (fst (handleClick c db index now)))) j = Mark p.
Proof.
  intros Hj. destruct (click_ignored (app c) index) eqn:E.
  - unfold handleClick. rewrite E. exact Hj.
  - pose proof (click_accepted_cell_free _ _ E) as Hfree.
    rewrite (handleClick_accepted _ _ _ _ E). cbn [fst app].
    rewrite apply_click_board.
    destruct (decide (j = index)) as [-> | Hne].
    + rewrite Hj in Hfree. discriminate.
    + rewrite get_array_set_other by congruence. exact Hj.
Qed.

(** X4. Clicks never remove or overwrite a mark: a cell that holds a mark
    holds the same mark after any sequence of clicks, accepted or not. *)
Theorem marks_stay clicks c db j p :
  get (board (app c)) j = Mark p ->
  get (board (app (fst (run (map (fun x => Click (fst x) (snd x)) clicks)
                          (c, db))))) j = Mark p.
Proof.
  revert c db. induction clicks as [|[index now] rest IH]; intros c db Hj;
    [exact Hj |].
  unfold run. cbn [map foldl step fst snd].
  pose proof (handleClick_keeps_mark c db index now j p Hj) as Hj'.
  destruct (handleClick c db index now) as [c' db']. exact (IH c' db' Hj').
Qed.

Lemma marks_stay_witness :
  get (board (app (fst (run [Click 4 0; Click 4 1; Click 0 2]
         (mkClient (setGameMode local initial_state) None, ∅))))) 4 = Mark X.
Proof.
  pose proof (marks_stay [(4, 1%Z); (0, 2%Z)]
                (fst (handleClick (mkClient (setGameMode local initial_state) None)
                        ∅ 4 0)) ∅ 4 X eq_refl) as H.
  exact H.
Defined.

Lemma holds_array_set_other arr index v m l :
  (let '(a, b, c) := l in a <> index /\ b <> index /\ c <> index) ->
  holds (array_set arr index v) m l -> holds arr m l.
Proof.
  destruct l as [[a b] c]. intros (Ha & Hb & Hc). unfold holds.
  rewrite !get_array_set_other by congruence. tauto.
Qed.

(** X5. The winner a click records is the player who clicked: if no line
    was filled before an accepted click and the click produces a winner,
    that winner is the player whose turn it was. *)
Theorem winner_is_mover c db index now p :
  click_ignored (app c) index = false ->
  (forall m, ~ completes (board (app c)) m) ->
  winner (app (fst (handleClick c db index now))) = Some (Win p) ->
  p = currentPlayer (app c).
Proof.
  intros E Hno. rewrite (handleClick_accepted _ _ _ _ E). cbn [fst app].
  pose proof (click_accepted_no_winner _ _ E) as Hw.
  unfold apply_click.
  set (newBoard := array_set (board (app c)) index (Mark (currentPlayer (app c)))).
  pose proof (checkWinner_win_completes newBoard p) as Hs.
  destruct (checkWinner newBoard) as [w|]; cbn [winner];
    [| rewrite Hw; discriminate].
  intros [= ->]. destruct (Hs eq_refl) as ([[a b] k] & Hin & Hl).
  destruct (decide (a = index)) as [-> | Ha].
  { destruct Hl as (H & _). unfold newBoard in H.
    rewrite get_array_set in H. congruence. }
  destruct (decide (b = index)) as [-> | Hb].
  { destruct Hl as (_ & H & _). unfold newBoard in H.
    rewrite get_array_set in H. congruence. }
  destruct (decide (k = index)) as [-> | Hk].
  { destruct Hl as (_ & _ & H). unfold newBoard in H.
    rewrite get_array_set in H. congruence. }
  destruct (Hno p). exists (a, b, k). split; [exact Hin |].
  eapply holds_array_set_other; [| exact Hl]. cbn. auto.
Qed.

Lemma winner_is_mover_witness :
  let c := fst (run [Click 0 0; Click 3 1; Click 1 2; Click 4 3]
                  (mkClient (setGameMode local initial_state) None, ∅)) in
  winner (app (fst (handleClick c ∅ 2 4))) = Some (Win X)
  /\ X = currentPlayer (app c).
Proof.
  intros c. split; [reflexivity |].
  apply (winner_is_mover c ∅ 2 4 X); [reflexivity | | reflexivity].
  intros []; no_line.
Defined.

(** X6. Scoring of an accepted click.  The move count grows by one.  A win
    gives exactly one point to the winner, leaves the other player and both
    names alone, and appends one history entry holding the final board, the
    winner and the time; a draw appends such an entry and changes no score;
    any other move changes neither scores nor history. *)
Theorem handleClick_scoring c db index now :
  click_ignored (app c) index = false ->
  let s := app c in
  let s' := app (fst (handleClick c db index now)) in
  moveCount s' = moveCount s + 1
  /\ match winner s' with
     | Some (Win p) =>
         score (player_info (players s') p)
           = score (player_info (players s) p) + 1
         /\ name (player_info (players s') p) = name (player_info (players s) p)
         /\ player_info (players s') (other p) = player_info (players s) (other p)
         /\ gameHistory s' =
              gameHistory s ++
              [GameHistory.mkEntry (board s') (Some (Win p)) now]
     | Some Draw =>
         players s' = players s
         /\ gameHistory s' =
              gameHistory s ++ [GameHistory.mkEntry (board s') (Some Draw) now]
     | None => players s' = players s /\ gameHistory s' = gameHistory s
     end.
Proof.
  intros E. cbv zeta. rewrite (handleClick_accepted _ _ _ _ E).
  cbn [fst app]. pose proof (click_accepted_no_winner _ _ E) as Hw.
  unfold apply_click.
  destruct (checkWinner _) as [[[]|]|];
    cbn [winner moveCount players gameHistory board player_info add_point
         playerX playerO score name other];
    try rewrite Hw; auto.
Qed.

Lemma handleClick_scoring_witness :
  let c := fst (run [Click 0 0; Click 3 1; Click 1 2; Click 4 3]
                  (mkClient (setGameMode local initial_state) None, ∅)) in
  moveCount (app (fst (handleClick c ∅ 2 4))) = 5.
Proof.
  intros c. rewrite (proj1 (handleClick_scoring c ∅ 2 4 eq_refl)). reflexivity.
Defined.

(** ** Invariants of a game *)

(** What an action can do to the game in progress: nothing, an accepted
    click, a reset, or a broadcast taking effect. *)
Lemma act_game a w :
  game_of (app (fst (act a w))) = game_of (app (fst w))
  \/ (exists index now,
        a = Do (Click index now)
        /\ click_ignored (app (fst w)) index = false
        /\ app (fst (act a w)) = apply_click (app (fst w)) index now)
  \/ (a = Do ResetGame /\ app (fst (act a w)) = reset_local (app (fst w)))
  \/ (exists payload,
        a = Do (Broadcast payload)
        /\ game_of (app (fst (act a w)))
           = (payload_board payload, payload_currentPlayer payload,
              payload_winner payload, moveCount (app (fst w)))).
Proof.
  destruct w as [c db].
  destruct a as [[mode | text | user raw | user | index now | | payload]
                | | p text | | |]; cbn [act step fst snd app];
    try (left; reflexivity).
  - left. unfold createRoom. destruct user as [uid|]; [| reflexivity].
    destruct (GameRooms.insert _ _ _ _ _ _); reflexivity.
  - left. unfold joinRoom. destruct (negb _); [reflexivity |].
    destruct user as [uid|]; [| reflexivity].
    destruct (GameRooms.update _ _ _ _ _) as [db' [room|]]; reflexivity.
  - destruct (click_ignored (app c) index) eqn:E.
    + left. unfold handleClick. rewrite E. reflexivity.
    + right. left. exists index, now. rewrite (handleClick_accepted _ _ _ _ E).
      auto.
  - right. right. left. auto.
  - unfold game_update. destruct (push_target (app c));
      [| left; reflexivity].
    right. right. right. exists payload. auto.
Qed.

Lemma perform_cons a acts w : perform (a :: acts) w = perform acts (act a w).
Proof. reflexivity. Qed.

(** A property of the state kept by every action of a list is kept by
    performing the list. *)
Lemma perform_invariant (P : AppState -> Prop) acts :
  (forall a w, In a acts -> P (app (fst w)) -> P (app (fst (act a w)))) ->
  forall w, P (app (fst w)) -> P (app (fst (perform acts w))).
Proof.
  induction acts as [|a acts IH]; intros Hstep w Hw; [exact Hw |].
  rewrite perform_cons. apply IH.
  - intros a' w' Hin. apply Hstep. right. exact Hin.
  - apply Hstep; [left; reflexivity | exact Hw].
Qed.

(** The same for actions offered by the screen. *)
Lemma play_invariant (P : AppState -> Prop) acts :
  (forall a w, In a acts -> offered (app (fst w)) a = true ->
     P (app (fst w)) -> P (app (fst (act a w)))) ->
  forall w, session_of_play acts w = true ->
    P (app (fst w)) -> P (app (fst (perform acts w))).
Proof.
  induction acts as [|a acts IH]; intros Hstep w Hplay Hw; [exact Hw |].
  cbn [session_of_play] in Hplay. apply andb_true_iff in Hplay as [Ha Hrest].
  rewrite perform_cons. apply IH.
  - intros a' w' Hin. apply Hstep. right. exact Hin.
  - exact Hrest.
  - apply Hstep; [left; reflexivity | exact Ha | exact Hw].
Qed.

Lemma marks_of_array_set arr i p q :
  truthy (get arr i) = false ->
  marks_of p (array_set arr i (Mark q))
  = marks_of p arr + (if bool_decide (p = q) then 1 else 0).
Proof.
  revert i. induction arr as [|h t IH]; intros i Hfree.
  - clear Hfree. induction i as [|i IHi].
    + destruct p, q; reflexivity.
    + cbn [array_set marks_of]. rewrite IHi. reflexivity.
  - destruct i as [|i]; cbn [array_set marks_of].
    + unfold get in Hfree. cbn in Hfree.
      unfold strict_eq.
      destruct h as [| |r]; [| | discriminate];
        repeat case_bool_decide; try discriminate; try congruence; lia.
    + rewrite (IH i Hfree). lia.
Qed.

Lemma tally_act a w :
  (forall payload, a <> Do (Broadcast payload)) ->
  marks_of X (board (app (fst w))) + marks_of O (board (app (fst w)))
    = moveCount (app (fst w)) ->
  marks_of X (board (app (fst (act a w))))
  + marks_of O (board (app (fst (act a w))))
    = moveCount (app (fst (act a w))).
Proof.
  intros Hnb Hinv.
  destruct (act_game a w) as [Heq | [(i & t & -> & E & ->) | [[-> ->]
                               | (payload & -> & _)]]].
  - unfold game_of in Heq. injection Heq as -> _ _ ->. exact Hinv.
  - rewrite apply_click_board.
    rewrite !marks_of_array_set by (apply click_accepted_cell_free, E).
    assert (moveCount (apply_click (app (fst w)) i t)
            = moveCount (app (fst w)) + 1) as ->.
    { unfold apply_click. destruct (checkWinner _); reflexivity. }
    destruct (currentPlayer (app (fst w))); repeat case_bool_decide;
      try congruence; lia.
  - reflexivity.
  - destruct (Hnb payload). reflexivity.
Qed.

Lemma no_broadcast_in acts a :
  no_broadcast acts -> In a acts -> forall payload, a <> Do (Broadcast payload).
Proof. intros Hnb Hin payload ->. exact (Hnb payload Hin). Qed.

(** X7. The move counter counts the marks on the board: if it does so at
    some point, it still does after any actions among which no broadcast
    takes part (clicks, accepted or not, resets, room operations, score
    resets, renaming). *)
Theorem moveCount_counts_marks acts w :
  no_broadcast acts ->
  marks_of X (board (app (fst w))) + marks_of O (board (app (fst w)))
    = moveCount (app (fst w)) ->
  let s' := app (fst (perform acts w)) in
  marks_of X (board s') + marks_of O (board s') = moveCount s'.
Proof.
  intros Hnb. cbv zeta.
  apply (perform_invariant
           (fun s => marks_of X (board s) + marks_of O (board s) = moveCount s)).
  intros a w' Hin. apply tally_act. eapply no_broadcast_in; eauto.
Qed.

Lemma no_broadcast_check acts :
  forallb (fun a => match a with Do (Broadcast _) => false | _ => true end) acts
    = true ->
  no_broadcast acts.
Proof.
  intros H payload Hin. rewrite forallb_forall in H.
  specialize (H _ Hin). discriminate.
Qed.

Lemma moveCount_counts_marks_witness :
  let s' := app (fst (perform [Do (ChooseMode local); Do (Click 4 0);
                               Do (Click 4 1); Do (Click 0 2); ResetScores]
                        (mkClient initial_state None, ∅))) in
  marks_of X (board s') + marks_of O (board s') = moveCount s'.
Proof.
  apply moveCount_counts_marks; [| reflexivity].
  apply no_broadcast_check. reflexivity.
Defined.

(** X8. Fair play.  From the initial state, without broadcasts, X never has
    fewer marks than O and at most one more; while the game is open the
    two counts are equal exactly when X is to move. *)
Theorem marks_balanced acts sess db :
  no_broadcast acts ->
  let s' := app (fst (perform acts (mkClient initial_state sess, db))) in
  marks_of O (board s') <= marks_of X (board s') <= marks_of O (board s') + 1
  /\ (winner s' = None ->
      (marks_of X (board s') = marks_of O (board s') <-> currentPlayer s' = X)).
Proof.
  intros Hnb. cbv zeta.
  set (bal := fun s =>
         marks_of X (board s) =
         marks_of O (board s) +
         match winner s, currentPlayer s with
         | None, X => 0 | None, O => 1 | Some _, X => 1 | Some _, O => 0
         end).
  assert (bal (app (fst (perform acts (mkClient initial_state sess, db)))))
    as Hbal.
  { apply (perform_invariant bal); [| reflexivity].
    intros a w' Hin Hinv. unfold bal in *.
    destruct (act_game a w') as [Heq | [(i & t & -> & E & ->) | [[-> ->]
                                  | (payload & -> & _)]]].
    - unfold game_of in Heq. injection Heq as -> -> -> _. exact Hinv.
    - pose proof (click_accepted_no_winner _ _ E) as Hw. rewrite Hw in Hinv.
      rewrite apply_click_board.
      rewrite !marks_of_array_set by (apply click_accepted_cell_free, E).
      unfold apply_click.
      destruct (checkWinner _); cbn [winner currentPlayer]; try rewrite Hw;
        destruct (currentPlayer (app (fst w'))); cbn [other] in *;
        repeat case_bool_decide; try congruence; lia.
    - reflexivity.
    - destruct (Hnb payload Hin). }
  unfold bal in Hbal. clear bal.
  destruct (winner _) eqn:Ew, (currentPlayer _) eqn:Ec; split;
    try lia; try discriminate; intros _; split; intros H;
    try reflexivity; try discriminate; lia.
Qed.

Lemma marks_balanced_witness :
  let s' := app (fst (perform [Do (ChooseMode local); Do (Click 4 0);
                               Do (Click 0 1); Do (Click 8 2)]
                        (mkClient initial_state None, ∅))) in
  marks_of O (board s') <= marks_of X (board s') <= marks_of O (board s') + 1.
Proof.
  intros s'. apply marks_balanced. apply no_broadcast_check. reflexivity.
Defined.

Lemma outcome_act a w :
  (forall payload, a <> Do (Broadcast payload)) ->
  winner (app (fst w)) = checkWinner (board (app (fst w))) ->
  winner (app (fst (act a w))) = checkWinner (board (app (fst (act a w)))).
Proof.
  intros Hnb Hinv.
  destruct (act_game a w) as [Heq | [(i & t & -> & E & ->) | [[-> ->]
                               | (payload & -> & _)]]].
  - unfold game_of in Heq. injection Heq as -> _ -> _. exact Hinv.
  - pose proof (click_accepted_no_winner _ _ E) as Hw.
    rewrite apply_click_board. unfold apply_click.
    destruct (checkWinner (array_set (board (app (fst w))) i
                             (Mark (currentPlayer (app (fst w))))))
      eqn:Ec; cbn [winner]; congruence.
  - reflexivity.
  - destruct (Hnb payload). reflexivity.
Qed.

(** X9. The stored winner never diverges from the board: if [winner] is
    what [checkWinner] computes for the board, it still is after any
    actions without broadcasts. *)
Theorem winner_is_checkWinner acts w :
  no_broadcast acts ->
  winner (app (fst w)) = checkWinner (board (app (fst w))) ->
  let s' := app (fst (perform acts w)) in
  winner s' = checkWinner (board s').
Proof.
  intros Hnb. cbv zeta.
  apply (perform_invariant (fun s => winner s = checkWinner (board s))).
  intros a w' Hin. apply outcome_act. eapply no_broadcast_in; eauto.
Qed.

Lemma winner_is_checkWinner_witness :
  let s' := app (fst (perform [Do (ChooseMode local); Do (Click 0 0);
                               Do (Click 3 1); Do (Click 1 2); Do (Click 4 3);
                               Do (Click 2 4); Do (Click 5 5)]
                        (mkClient initial_state None, ∅))) in
  winner s' = Some (Win X) /\ winner s' = checkWinner (board s').
Proof.
  intros s'. split; [reflexivity |].
  apply winner_is_checkWinner; [| reflexivity].
  apply no_broadcast_check. reflexivity.
Defined.

(** ** Games played through the screens *)

Lemma nine_cells_act a w :
  offered (app (fst w)) a = true ->
  (forall payload, a = Do (Broadcast payload) ->
     nine_cells (payload_board payload)) ->
  nine_cells (board (app (fst w))) ->
  nine_cells (board (app (fst (act a w)))).
Proof.
  intros Hoff Hpay Hinv.
  destruct (act_game a w) as [Heq | [(i & t & -> & E & ->) | [[-> ->]
                               | (payload & -> & Heq)]]].
  - unfold game_of in Heq. injection Heq as -> _ _ _. exact Hinv.
  - cbn [offered] in Hoff. apply andb_true_iff in Hoff as [_ Hi].
    apply Nat.ltb_lt in Hi. rewrite apply_click_board.
    destruct Hinv as [Hlen Hty]. split.
    + rewrite length_array_set, Hlen. lia.
    + apply array_set_in_range; [lia | discriminate | exact Hty].
  - split; [reflexivity |]. repeat constructor; discriminate.
  - unfold game_of in Heq. cbn [act] in Heq |- *.
    injection Heq as -> _ _ _. apply Hpay. reflexivity.
Qed.

(** X10. Through the screens the board never leaves its type: starting
    from a nine-cell board of nulls and marks, after any actions the screen
    offers (the squares pass indices 0 to 8) and broadcasts that carry
    nine-cell boards, the board still has nine cells, each null or a
    mark. *)
Theorem board_stays_nine_cells acts w :
  session_of_play acts w = true ->
  broadcasts_nine_cells acts ->
  nine_cells (board (app (fst w))) ->
  nine_cells (board (app (fst (perform acts w)))).
Proof.
  intros Hplay Hpay.
  apply (play_invariant (fun s => nine_cells (board s))); [| exact Hplay].
  intros a w' Hin Hoff. apply nine_cells_act; [exact Hoff |].
  intros payload ->. apply Hpay, Hin.
Qed.

Lemma board_stays_nine_cells_witness :
  nine_cells
    (board (app (fst (perform
       [Do (ChooseMode local); Do (Click 4 0); Do (Click 0 1); Do ResetGame;
        Do (Click 8 2)]
       (mkClient initial_state None, ∅))))).
Proof.
  apply board_stays_nine_cells.
  - reflexivity.
  - intros payload Hin. cbn in Hin.
    repeat (destruct Hin as [Hin | Hin]; [discriminate |]). destruct Hin.
  - apply nine_cells_check; reflexivity.
Defined.

Lemma marks_bound b :
  marks_of X b + marks_of O b <= List.length b
  /\ (In Null b -> marks_of X b + marks_of O b < List.length b).
Proof.
  induction b as [|c t [IH1 IH2]]; [split; [cbn; lia | intros []] |].
  cbn [marks_of List.length]. unfold strict_eq. split.
  - repeat case_bool_decide; try congruence; lia.
  - intros [-> | Hin].
    + repeat case_bool_decide; try discriminate; lia.
    + specialize (IH2 Hin). repeat case_bool_decide; try congruence; lia.
Qed.

(** X11. A game played through the screens is over after nine moves at the
    latest: from the initial state, without broadcasts, the move count never
    exceeds 9, and when it is 9 a winner or a draw has been recorded. *)
Theorem game_over_by_nine_moves acts sess db :
  session_of_play acts (mkClient initial_state sess, db) = true ->
  no_broadcast acts ->
  let s' := app (fst (perform acts (mkClient initial_state sess, db))) in
  moveCount s' <= 9 /\ (moveCount s' = 9 -> winner s' <> None).
Proof.
  intros Hplay Hnb. cbv zeta.
  set (P := fun s =>
         nine_cells (board s)
         /\ marks_of X (board s) + marks_of O (board s) = moveCount s
         /\ winner s = checkWinner (board s)).
  assert (P (app (fst (perform acts (mkClient initial_state sess, db)))))
    as (Hnine & Htally & Hwin).
  { apply (play_invariant P); [| exact Hplay |].
    - intros a w Hin Hoff (H1 & H2 & H3).
      pose proof (no_broadcast_in acts a Hnb Hin) as Ha.
      split; [| split].
      + apply nine_cells_act; [exact Hoff | | exact H1].
        intros payload ->. destruct (Ha payload). reflexivity.
      + apply tally_act; assumption.
      + apply outcome_act; assumption.
    - split; [apply nine_cells_check; reflexivity |]. split; reflexivity. }
  destruct Hnine as [Hlen _].
  destruct (marks_bound (board (app (fst (perform acts
              (mkClient initial_state sess, db)))))) as [Hle Hlt].
  split; [lia |]. intros H9 Hnone.
  rewrite Hwin in Hnone. apply checkWinner_none_null in Hnone.
  specialize (Hlt Hnone). lia.
Qed.

Lemma game_over_by_nine_moves_witness :
  let s' := app (fst (perform
       [Do (ChooseMode local); Do (Click 0 0); Do (Click 1 1); Do (Click 2 2);
        Do (Click 4 3); Do (Click 3 4); Do (Click 5 5); Do (Click 7 6);
        Do (Click 6 7); Do (Click 8 8)]
       (mkClient initial_state None, ∅))) in
  moveCount s' = 9 /\ winner s' = Some Draw /\ winner s' <> None.
Proof.
  intros s'. split; [reflexivity |]. split; [reflexivity |].
  apply (game_over_by_nine_moves _ None ∅);
    [reflexivity | apply no_broadcast_check; reflexivity | reflexivity].
Defined.

(** ** Scores and history *)

(** What an action can do to the players and the history: nothing, the
    scoring of an accepted click, a score reset, or a renaming. *)
Lemma act_scores a w :
  (players (app (fst (act a w))) = players (app (fst w))
   /\ gameHistory (app (fst (act a w))) = gameHistory (app (fst w)))
  \/ (exists index now,
        a = Do (Click index now)
        /\ click_ignored (app (fst w)) index = false
        /\ app (fst (act a w)) = apply_click (app (fst w)) index now)
  \/ (a = ResetScores /\ app (fst (act a w)) = resetScores (app (fst w)))
  \/ (exists p text,
        a = Rename p text
        /\ app (fst (act a w)) = set_name p text (app (fst w))).
Proof.
  destruct w as [c db].
  destruct a as [[mode | text | user raw | user | index now | | payload]
                | | p text | | |]; cbn [act step fst snd app];
    try (left; split; reflexivity).
  - left. unfold createRoom. destruct user as [uid|]; [| split; reflexivity].
    destruct (GameRooms.insert _ _ _ _ _ _); split; reflexivity.
  - left. unfold joinRoom. destruct (negb _); [split; reflexivity |].
    destruct user as [uid|]; [| split; reflexivity].
    destruct (GameRooms.update _ _ _ _ _) as [db' [room|]]; split; reflexivity.
  - destruct (click_ignored (app c) index) eqn:E.
    + left. unfold handleClick. rewrite E. split; reflexivity.
    + right. left. exists index, now. rewrite (handleClick_accepted _ _ _ _ E).
      auto.
  - left. unfold game_update. destruct (push_target (app c)); split; reflexivity.
  - right. right. left. auto.
  - right. right. right. eauto.
Qed.

Lemma wins_of_app p h e :
  wins_of p (h ++ [e])
  = wins_of p h
    + (if bool_decide (GameHistory.winner e = Some (Win p)) then 1 else 0).
Proof.
  induction h as [|e' h IH]; cbn [wins_of List.app].
  - destruct (bool_decide (GameHistory.winner e = Some (Win p))); lia.
  - rewrite IH. lia.
Qed.

(** X12. The scoreboard is the tally of the history: if each player's score
    equals the number of recorded games that player won, it still does
    after any actions, broadcasts included (a win scores a point and records
    a game, a draw records a game, a score reset clears both). *)
Theorem scores_tally_history acts w :
  (forall p, score (player_info (players (app (fst w))) p)
             = wins_of p (gameHistory (app (fst w)))) ->
  let s' := app (fst (perform acts w)) in
  forall p, score (player_info (players s') p) = wins_of p (gameHistory s').
Proof.
  cbv zeta.
  apply (perform_invariant
           (fun s => forall p, score (player_info (players s) p)
                               = wins_of p (gameHistory s))).
  intros a w' _ Hinv p.
  destruct (act_scores a w') as [[-> ->] | [(i & t & -> & E & ->) | [[-> ->]
                                 | (q & text & -> & ->)]]].
  - apply Hinv.
  - pose proof (Hinv X) as HX. pose proof (Hinv O) as HO.
    unfold apply_click.
    destruct (checkWinner _) as [[[]|]|];
      cbn [players gameHistory]; rewrite ?wins_of_app;
      cbn [GameHistory.winner]; destruct p;
      cbn [player_info add_point playerX playerO score] in *;
      repeat case_bool_decide; try congruence; lia.
  - destruct p; reflexivity.
  - pose proof (Hinv p) as Hp. destruct p, q; exact Hp.
Qed.

Lemma scores_tally_history_witness :
  let s' := app (fst (perform
       [Do (ChooseMode local); Do (Click 0 0); Do (Click 3 1); Do (Click 1 2);
        Do (Click 4 3); Do (Click 2 4); Do ResetGame; Rename O "Zoe"]
       (mkClient initial_state None, ∅))) in
  score (player_info (players s') X) = 1
  /\ forall p, score (player_info (players s') p) = wins_of p (gameHistory s').
Proof.
  intros s'. split; [reflexivity |].
  apply scores_tally_history. intros []; reflexivity.
Defined.

(** X13. Only finished games are recorded: if every history entry holds a
    board together with the outcome [checkWinner] computes for it, and that
    outcome is a win or a draw, the same is true after any actions. *)
Theorem history_records_outcomes acts w :
  Forall (fun e => GameHistory.winner e <> None
                   /\ checkWinner (GameHistory.board e) = GameHistory.winner e)
         (gameHistory (app (fst w))) ->
  Forall (fun e => GameHistory.winner e <> None
                   /\ checkWinner (GameHistory.board e) = GameHistory.winner e)
         (gameHistory (app (fst (perform acts w)))).
Proof.
  apply (perform_invariant
           (fun s => Forall (fun e => GameHistory.winner e <> None
                       /\ checkWinner (GameHistory.board e)
                          = GameHistory.winner e) (gameHistory s))).
  intros a w' _ Hinv.
  destruct (act_scores a w') as [[_ ->] | [(i & t & -> & E & ->) | [[-> ->]
                                 | (q & text & -> & ->)]]].
  - exact Hinv.
  - unfold apply_click.
    destruct (checkWinner _) as [nw|] eqn:Ec; cbn [gameHistory];
      [| exact Hinv].
    apply Forall_app. split; [exact Hinv |].
    constructor; [| constructor]. cbn. split; [discriminate | exact Ec].
  - constructor.
  - exact Hinv.
Qed.

Lemma history_records_outcomes_witness :
  Forall (fun e => GameHistory.winner e <> None
                   /\ checkWinner (GameHistory.board e) = GameHistory.winner e)
    (gameHistory (app (fst (perform
       [Do (ChooseMode local); Do (Click 0 0); Do (Click 3 1); Do (Click 1 2);
        Do (Click 4 3); Do (Click 2 4)]
       (mkClient initial_state None, ∅))))).
Proof.
  apply history_records_outcomes. constructor.
Defined.

(** ** resetScores *)

(** [resetScores] sets both scores to 0 and empties the history; it
    keeps both names and symbols, the game in progress, the mode and the
    online state; doing it twice is doing it once, and it commutes with
    the local part of [resetGame]. *)
Theorem resetScores_spec s :
  let s' := resetScores s in
  (forall p, score (player_info (players s') p) = 0
             /\ name (player_info (players s') p)
                = name (player_info (players s) p)
             /\ symbol (player_info (players s') p)
                = symbol (player_info (players s) p))
  /\ gameHistory s' = []
  /\ game_of s' = game_of s
  /\ gameMode s' = gameMode s
  /\ onlineGame s' = onlineGame s
  /\ resetScores s' = s'
  /\ resetScores (reset_local s) = reset_local (resetScores s).
Proof.
  cbv zeta. split; [intros []; repeat split |]. repeat split.
Qed.

(** ** The table over time *)

Lemma update_row session code0 cond p (db : gmap string GameRooms.row) code r :
  db !! code = Some r ->
  exists r',
    fst (GameRooms.update session code0 cond p db) !! code = Some r'
    /\ (r' = r \/ (cond r = true /\ r' = GameRooms.apply_patch p r)).
Proof.
  intros Hr.
  destruct (update_cases session code0 cond p db)
    as [-> | (uid & r0 & _ & Hr0 & _ & Hc & ->)]; [eauto |].
  cbn [fst]. destruct (decide (code0 = code)) as [-> | Hne].
  - rewrite lookup_insert_eq. rewrite Hr in Hr0. injection Hr0 as <-. eauto.
  - rewrite lookup_insert_ne by exact Hne. eauto.
Qed.

Lemma push_row c p (db : gmap string GameRooms.row) code r :
  db !! code = Some r ->
  exists r',
    push c p db !! code = Some r'
    /\ (r' = r \/ r' = GameRooms.apply_patch p r).
Proof.
  intros Hr. unfold push. destruct (push_target (app c)) as [code0|]; [| eauto].
  destruct (update_row (session c) code0 (fun _ => true) p db code r Hr)
    as (r' & Hr' & [-> | [_ ->]]); eauto.
Qed.

(** What an action does to a room that exists: it stays, unchanged or
    patched by a join (it was [waiting] without guest), a click or a
    reset. *)
Lemma act_row a w code r :
  snd w !! code = Some r ->
  exists r',
    snd (act a w) !! code = Some r'
    /\ (r' = r
        \/ (exists uid user, a = Do (JoinRoom user) /\ join_filter r = true
              /\ r' = GameRooms.apply_patch (join_patch uid) r)
        \/ (exists index now, a = Do (Click index now)
              /\ r' = GameRooms.apply_patch
                        (click_patch (app (fst w)) index) r)
        \/ (a = Do ResetGame /\ r' = GameRooms.apply_patch reset_patch r)).
Proof.
  destruct w as [c db]. cbn [snd fst]. intros Hr.
  destruct a as [[mode | text | user raw | user | index now | | payload]
                | | p text | | |]; cbn [act step fst snd]; eauto.
  - unfold createRoom. destruct user as [uid|]; [| eauto].
    unfold GameRooms.insert.
    destruct (db !! new_room_code raw) eqn:Hk; cbn [snd]; [eauto |].
    exists r. split; [| left; reflexivity].
    rewrite lookup_insert_ne; [exact Hr | congruence].
  - unfold joinRoom. destruct (negb _); [eauto |].
    destruct user as [uid|]; [| eauto].
    destruct (update_row (Some uid) (toUpperCase (joinCode (app c)))
                join_filter (join_patch uid) db code r Hr)
      as (r' & Hr' & Hcase).
    destruct (GameRooms.update _ _ _ _ _) as [db' [room|]]; cbn [fst snd] in *;
      exists r'; (split; [exact Hr' |]);
      (destruct Hcase as [-> | [Hf ->]]; [left; reflexivity |]);
      right; left; eauto.
  - unfold handleClick. destruct (click_ignored (app c) index); [eauto |].
    cbn [snd].
    destruct (push_row c (click_patch (app c) index) db code r Hr)
      as (r' & Hr' & [-> | ->]); eauto 10.
  - destruct (push_row c reset_patch db code r Hr)
      as (r' & Hr' & [-> | ->]); eauto 10.
Qed.

Lemma later_version_refl r : later_version r r.
Proof. unfold later_version. auto. Qed.

Lemma later_version_trans r1 r2 r3 :
  later_version r1 r2 -> later_version r2 r3 -> later_version r1 r3.
Proof.
  unfold later_version. intros (H1 & G1 & S1) (H2 & G2 & S2).
  split; [congruence |]. split.
  - intros Hg. rewrite <- (G1 Hg). apply G2. rewrite (G1 Hg). exact Hg.
  - auto.
Qed.

Lemma act_later_version a w code r :
  snd w !! code = Some r ->
  exists r', snd (act a w) !! code = Some r' /\ later_version r r'.
Proof.
  intros Hr. destruct (act_row a w code r Hr) as (r' & Hr' & Hcase).
  exists r'. split; [exact Hr' |]. clear Hr'.
  destruct Hcase as [-> | [(uid & user & _ & Hf & ->)
                    | [(index & now & _ & ->) | [_ ->]]]].
  - apply later_version_refl.
  - unfold join_filter in Hf. apply andb_true_iff in Hf as [Hs Hg].
    apply bool_decide_eq_true in Hs, Hg.
    unfold later_version. cbn. split; [reflexivity |]. split; congruence.
  - unfold later_version, click_patch. destruct (checkWinner _); cbn;
      (split; [reflexivity |]); split; auto; discriminate.
  - unfold later_version. cbn. split; [reflexivity |]. split; auto; discriminate.
Qed.

(** X14. Rooms are never deleted and never change hands: a room that
    exists still exists under the same code after any actions of a
    participant, with the same host; a guest once set stays the same; and a
    room that has left [waiting] never returns to it, so it is closed to
    [joinRoom] for good. *)
Theorem rooms_persist acts w code r :
  snd w !! code = Some r ->
  exists r',
    snd (perform acts w) !! code = Some r'
    /\ GameRooms.host_id r' = GameRooms.host_id r
    /\ (GameRooms.guest_id r <> None ->
        GameRooms.guest_id r' = GameRooms.guest_id r)
    /\ (GameRooms.status r <> waiting ->
        GameRooms.status r' <> waiting /\ join_filter r' = false).
Proof.
  intros Hr.
  assert (exists r', snd (perform acts w) !! code = Some r' /\ later_version r r')
    as (r' & Hr' & (Hh & Hg & Hs)).
  { revert w r Hr. induction acts as [|a acts IH]; intros w r Hr.
    - exists r. split; [exact Hr | apply later_version_refl].
    - rewrite perform_cons.
      destruct (act_later_version a w code r Hr) as (r1 & Hr1 & Hl1).
      destruct (IH (act a w) r1 Hr1) as (r2 & Hr2 & Hl2).
      exists r2. split; [exact Hr2 |]. eapply later_version_trans; eauto. }
  exists r'. split; [exact Hr' |]. split; [exact Hh |]. split; [exact Hg |].
  intros Hw. specialize (Hs Hw). split; [exact Hs |].
  unfold join_filter. rewrite (bool_decide_eq_false_2 _ Hs). reflexivity.
Qed.

Lemma rooms_persist_witness :
  exists r',
    snd (perform [Do (Click 4 0); Do ResetGame; Do (Click 0 1)] host_in_room)
      !! "AB12CD" = Some r'
    /\ GameRooms.host_id r' = "host".
Proof.
  destruct (rooms_persist [Do (Click 4 0); Do ResetGame; Do (Click 0 1)]
              host_in_room "AB12CD"
              (GameRooms.mkRow "host" None empty_board X None waiting)
              eq_refl) as (r' & Hr' & Hh & _).
  exists r'. split; [exact Hr' | exact Hh].
Defined.

Lemma to_json_typed b : typed_board (to_json b).
Proof.
  unfold typed_board, to_json. apply Forall_map, Forall_forall.
  intros c _. cbn. destruct c; discriminate.
Qed.

Lemma update_origin session code0 cond p (db : gmap string GameRooms.row) k r' :
  fst (GameRooms.update session code0 cond p db) !! k = Some r' ->
  exists r, db !! k = Some r.
Proof.
  destruct (update_cases session code0 cond p db)
    as [-> | (uid & r0 & _ & Hr0 & _ & _ & ->)]; [eauto |].
  cbn [fst]. rewrite lookup_insert. case_decide as Hk; [| eauto].
  intros _. rewrite <- Hk. eauto.
Qed.

(** Where a room of the table after an action comes from: it existed
    before, or [createRoom] has just inserted it, [waiting], without guest
    and with the creator's board as JSON. *)
Lemma act_origin a w k r' :
  snd (act a w) !! k = Some r' ->
  (exists r, snd w !! k = Some r)
  \/ (GameRooms.guest_id r' = None
      /\ GameRooms.status r' = waiting
      /\ GameRooms.winner r' = None
      /\ GameRooms.board r' = to_json (board (app (fst w)))).
Proof.
  destruct w as [c db]. cbn [snd fst].
  destruct a as [[mode | text | user raw | user | index now | | payload]
                | | p text | | |]; cbn [act step fst snd]; eauto.
  - unfold createRoom. destruct user as [uid|]; [| eauto].
    unfold GameRooms.insert.
    destruct (db !! new_room_code raw) eqn:Hk; cbn [snd]; [eauto |].
    rewrite lookup_insert. case_decide; [| eauto].
    intros [= <-]. right. auto.
  - unfold joinRoom. destruct (negb _); [eauto |].
    destruct user as [uid|]; [| eauto].
    pose proof (update_origin (Some uid) (toUpperCase (joinCode (app c)))
                  join_filter (join_patch uid) db k r') as H.
    destruct (GameRooms.update _ _ _ _ _) as [db' [room|]]; cbn [fst snd] in *;
      intros Hk; left; apply H, Hk.
  - unfold handleClick. destruct (click_ignored (app c) index); [eauto |].
    cbn [snd]. unfold push. destruct (push_target (app c)); [| eauto].
    intros Hk. left. eapply update_origin, Hk.
  - unfold resetGame. cbn [snd]. unfold push.
    destruct (push_target (app c)); [| eauto].
    intros Hk. left. eapply update_origin, Hk.
Qed.

Lemma act_well_formed a w :
  rooms_well_formed (snd w) -> rooms_well_formed (snd (act a w)).
Proof.
  intros Hwf k r' Hk.
  destruct (act_origin a w k r' Hk) as [[r Hr] | (Hg & Hs & _ & Hb)].
  - destruct (Hwf k r Hr) as [Hty Hgs].
    destruct (act_row a w k r Hr) as (r2 & Hr2 & Hcase).
    rewrite Hk in Hr2. injection Hr2 as <-.
    destruct Hcase as [-> | [(uid & user & _ & Hf & ->)
                      | [(index & now & _ & ->) | [_ ->]]]].
    + auto.
    + cbn. split; [exact Hty | discriminate].
    + unfold click_patch. destruct (checkWinner _); cbn.
      * split; [apply to_json_typed | discriminate].
      * split; [apply to_json_typed | exact Hgs].
    + cbn. split; [| discriminate]. repeat constructor; discriminate.
  - rewrite Hb, Hg. split; [apply to_json_typed | congruence].
Qed.

(** X15. The table stays well formed: if every room holds a board without
    [undefined] cells and is not [waiting] once it has a guest, the same is
    true after any actions, also after clicks past the end of the board
    (the holes they leave locally are stored as nulls). *)
Theorem rooms_stay_well_formed acts w :
  rooms_well_formed (snd w) -> rooms_well_formed (snd (perform acts w)).
Proof.
  revert w. induction acts as [|a acts IH]; intros w Hwf; [exact Hwf |].
  rewrite perform_cons. apply IH, act_well_formed, Hwf.
Qed.

Lemma rooms_stay_well_formed_witness :
  rooms_well_formed
    (snd (perform [Do (ChooseMode online); Do (CreateRoom (Some "host") "ab12cd");
                   Do (Click 11 0); Do ResetGame]
            (mkClient initial_state None, ∅))).
Proof.
  apply rooms_stay_well_formed. intros k r H. cbn [snd] in H.
  rewrite lookup_empty in H. discriminate.
Defined.

(** ** Modes and screens *)

Lemma render_mode_selection s :
  render s = ModeSelection <-> gameMode s = None.
Proof.
  unfold render, is_online.
  destruct (gameMode s) as [[]|] eqn:Hm; cbn.
  - split; discriminate.
  - destruct (negb (online_connected s)); [destruct (onlineGame s) |];
      split; discriminate.
  - split; reflexivity.
Qed.

Lemma render_form_online s :
  render s = OnlineSetupForm -> gameMode s = Some online /\ onlineGame s = None.
Proof.
  unfold render, is_online.
  destruct (gameMode s) as [[]|] eqn:Hm; cbn; try discriminate.
  destruct (negb (online_connected s)); [| discriminate].
  destruct (onlineGame s); [discriminate | auto].
Qed.

Lemma act_mode a w m :
  gameMode (app (fst w)) = Some m ->
  offered (app (fst w)) a = true ->
  gameMode (app (fst (act a w))) = Some m.
Proof.
  destruct w as [c db]. cbn [fst]. intros Hm Hoff.
  destruct a as [[mode | text | user raw | user | index now | | payload]
                | | p text | | |]; cbn [act step fst snd app]; try exact Hm.
  - cbn [offered] in Hoff. apply bool_decide_eq_true in Hoff.
    apply render_mode_selection in Hoff. congruence.
  - unfold createRoom. destruct user as [uid|]; [| exact Hm].
    destruct (GameRooms.insert _ _ _ _ _ _); exact Hm.
  - unfold joinRoom. destruct (negb _); [exact Hm |].
    destruct user as [uid|]; [| exact Hm].
    destruct (GameRooms.update _ _ _ _ _) as [db' [room|]]; exact Hm.
  - unfold handleClick. destruct (click_ignored (app c) index); [exact Hm |].
    cbn [fst app]. unfold apply_click. destruct (checkWinner _); exact Hm.
  - unfold game_update. destruct (push_target (app c)); exact Hm.
Qed.

(** X16. The mode is chosen once: the two mode buttons are only on the
    start screen, which is shown only while no mode is set, so once
    [gameMode] is local or online it stays so through everything the
    screens offer. *)
Theorem mode_is_permanent acts w m :
  gameMode (app (fst w)) = Some m ->
  session_of_play acts w = true ->
  gameMode (app (fst (perform acts w))) = Some m.
Proof.
  intros Hm Hplay.
  apply (play_invariant (fun s => gameMode s = Some m)); [| exact Hplay | exact Hm].
  intros a w' _ Hoff Hm'. apply act_mode; assumption.
Qed.

Lemma mode_is_permanent_witness :
  gameMode (app (fst (perform
     [Do (Click 4 0); ToggleSettings; Rename X "Ann"; Do ResetGame]
     (mkClient (setGameMode local initial_state) None, ∅)))) = Some local.
Proof.
  apply mode_is_permanent; reflexivity.
Defined.

Lemma local_act_offline a w :
  gameMode (app (fst w)) = Some local ->
  offered (app (fst w)) a = true ->
  snd (act a w) = snd w /\ session (fst (act a w)) = session (fst w).
Proof.
  destruct w as [c db]. cbn [fst snd]. intros Hm Hoff.
  assert (push_target (app c) = None) as Hpt.
  { unfold push_target, is_online. rewrite Hm. reflexivity. }
  assert (render (app c) <> OnlineSetupForm) as Hform.
  { intros H. apply render_form_online in H as [H _]. congruence. }
  destruct a as [[mode | text | user raw | user | index now | | payload]
                | | p text | | |]; cbn [act step fst snd session]; auto.
  - cbn [offered] in Hoff. apply bool_decide_eq_true in Hoff.
    destruct (Hform Hoff).
  - cbn [offered] in Hoff. apply andb_true_iff in Hoff as [Hoff _].
    apply bool_decide_eq_true in Hoff. destruct (Hform Hoff).
  - unfold handleClick. destruct (click_ignored (app c) index); [auto |].
    cbn [fst snd session]. unfold push. rewrite Hpt. auto.
  - unfold resetGame. cbn [fst snd session]. unfold push. rewrite Hpt. auto.
Qed.

(** X17. A local game never talks to the server: in local mode nothing the
    screens offer (clicks, new game, score reset, settings) and no
    broadcast changes the table or signs the client in. *)
Theorem local_play_is_offline acts w :
  gameMode (app (fst w)) = Some local ->
  session_of_play acts w = true ->
  snd (perform acts w) = snd w
  /\ session (fst (perform acts w)) = session (fst w).
Proof.
  revert w. induction acts as [|a acts IH]; intros w Hm Hplay; [auto |].
  cbn [session_of_play] in Hplay. apply andb_true_iff in Hplay as [Ha Hrest].
  rewrite perform_cons.
  destruct (local_act_offline a w Hm Ha) as [Hdb Hs].
  destruct (IH (act a w) (act_mode a w local Hm Ha) Hrest) as [Hdb' Hs'].
  split; congruence.
Qed.

Lemma local_play_is_offline_witness :
  snd (perform [Do (Click 4 0); Do (Click 0 1); Do ResetGame; ResetScores]
         (mkClient (setGameMode local initial_state) None, snd host_in_room))
  = snd host_in_room.
Proof.
  apply (local_play_is_offline
           [Do (Click 4 0); Do (Click 0 1); Do ResetGame; ResetScores]
           (mkClient (setGameMode local initial_state) None, snd host_in_room));
    reflexivity.
Defined.

(** ** Turns online *)

(** X18. Online, nobody moves twice in a row: after an accepted click the
    same participant's next click is ignored, whatever cell it aims at
    (either the game is over or the turn has passed to the other mark),
    until a broadcast or a reset changes the state. *)
Theorem no_second_move_online c db index now index' now' :
  gameMode (app c) = Some online ->
  click_ignored (app c) index = false ->
  let w1 := handleClick c db index now in
  click_ignored (app (fst w1)) index' = true
  /\ handleClick (fst w1) (snd w1) index' now' = w1.
Proof.
  intros Hm E. cbv zeta.
  assert (click_ignored (app (fst (handleClick c db index now))) index' = true)
    as Hign.
  { rewrite (handleClick_accepted _ _ _ _ E). cbn [fst app].
    pose proof E as E'. unfold click_ignored in E'.
    rewrite !orb_false_iff in E'. destruct E' as [_ Hturn].
    apply is_online_true in Hm. rewrite Hm in Hturn. cbn [andb] in Hturn.
    apply negb_false_iff, bool_decide_eq_true in Hturn.
    unfold apply_click. destruct (checkWinner _) as [nw|].
    - apply click_ignored_winner. discriminate.
    - unfold click_ignored, is_online, own_mark in *.
      cbn [board winner gameMode currentPlayer onlineGame].
      rewrite Hm. cbn [andb]. rewrite Hturn.
      assert (bool_decide
                (other match onlineGame (app c) with
                       | Some og => if default false (isHost og) then X else O
                       | None => O
                       end
                 = match onlineGame (app c) with
                   | Some og => if default false (isHost og) then X else O
                   | None => O
                   end) = false) as ->.
      { apply bool_decide_eq_false.
        destruct (onlineGame (app c)) as [og|];
          [destruct (default false (isHost og)) |]; discriminate. }
      cbn. apply orb_true_r. }
  split; [exact Hign |].
  unfold handleClick at 1. rewrite Hign.
  destruct (handleClick c db index now). reflexivity.
Qed.

Lemma no_second_move_online_witness :
  let w1 := handleClick (fst host_in_room) (snd host_in_room) 4 0 in
  handleClick (fst w1) (snd w1) 0 1 = w1.
Proof.
  intros w1.
  apply (no_second_move_online (fst host_in_room) (snd host_in_room) 4 0 0 1);
    reflexivity.
Defined.

Lemma get_empty_board index : truthy (get empty_board index) = false.
Proof.
  do 9 (destruct index as [|index]; [reflexivity |]).
  unfold get. cbn. destruct index; reflexivity.
Qed.

(** X19. Who may open a new game: right after [resetGame] a click on any
    cell is accepted offline, and online exactly for the connected host
    (X); a guest cannot make the first move of a new game. *)
Theorem first_move_after_reset c db index :
  click_ignored (app (fst (resetGame c db))) index = false
  <-> (gameMode (app c) <> Some online
       \/ (online_connected (app c) = true /\ own_mark (app c) = X)).
Proof.
  unfold resetGame. cbn [fst app]. unfold click_ignored.
  change (board (reset_local (app c))) with empty_board.
  rewrite get_empty_board.
  change (winner (reset_local (app c))) with (@None Outcome).
  change (currentPlayer (reset_local (app c))) with X.
  change (is_online (reset_local (app c))) with (is_online (app c)).
  change (online_connected (reset_local (app c)))
    with (online_connected (app c)).
  change (own_mark (reset_local (app c))) with (own_mark (app c)).
  rewrite (bool_decide_eq_false_2 (None <> None)) by (intros H; apply H; reflexivity).
  cbn [orb]. rewrite orb_false_iff.
  destruct (is_online (app c)) eqn:Ho.
  - apply is_online_true in Ho. cbn [andb].
    rewrite !negb_false_iff, bool_decide_eq_true. split.
    + intros [Hc Hx]. right. auto.
    + intros [Hn | [Hc Hx]]; [destruct (Hn Ho) | auto].
  - cbn [andb]. split; [| auto]. intros _. left. intros H.
    apply is_online_true in H. congruence.
Qed.

(** ** Updates under the policies *)

(** X21. No update gets past the policies: whatever the filter and the
    patch, an [update] changes at most the row it addresses, and only for a
    signed-in caller who is the host or the guest of that row before the
    update and after it. *)
Theorem update_only_by_participants session code cond p
    (db : gmap string GameRooms.row) k :
  fst (GameRooms.update session code cond p db) !! k <> db !! k ->
  k = code
  /\ exists uid r,
       session = Some uid /\ db !! k = Some r
       /\ fst (GameRooms.update session code cond p db) !! k
          = Some (GameRooms.apply_patch p r)
       /\ (uid = GameRooms.host_id r \/ GameRooms.guest_id r = Some uid)
       /\ (uid = GameRooms.host_id (GameRooms.apply_patch p r)
           \/ GameRooms.guest_id (GameRooms.apply_patch p r) = Some uid).
Proof.
  unfold GameRooms.update.
  destruct session as [uid|]; [| intros H; destruct H; reflexivity].
  destruct (db !! code) as [r|] eqn:Hr; [| intros H; destruct H; reflexivity].
  destruct (GameRooms.select_using uid r); cbn [andb];
    [| intros H; destruct H; reflexivity].
  destruct (GameRooms.update_using uid r) eqn:Hu; cbn [andb];
    [| intros H; destruct H; reflexivity].
  destruct (cond r); [| intros H; destruct H; reflexivity].
  destruct (GameRooms.update_check uid (GameRooms.apply_patch p r)) eqn:Hc;
    cbn [andb]; [| intros H; destruct H; reflexivity].
  destruct (GameRooms.select_using uid (GameRooms.apply_patch p r));
    [| intros H; destruct H; reflexivity].
  cbn [fst]. intros Hne.
  destruct (decide (code = k)) as [<- | Hk];
    [| destruct Hne; apply lookup_insert_ne, Hk].
  split; [reflexivity |]. exists uid, r.
  split; [reflexivity |]. split; [exact Hr |].
  split; [apply lookup_insert_eq |].
  unfold GameRooms.update_using in Hu. unfold GameRooms.update_check in Hc.
  apply orb_true_iff in Hu, Hc.
  rewrite !bool_decide_eq_true in Hu, Hc. auto.
Qed.

Lemma update_only_by_participants_witness :
  let db := snd host_in_room in
  exists uid r,
    Some "host" = Some uid /\ db !! "AB12CD" = Some r
    /\ (uid = GameRooms.host_id r \/ GameRooms.guest_id r = Some uid).
Proof.
  intros db.
  destruct (update_only_by_participants (Some "host") "AB12CD" (fun _ => true)
              reset_patch db "AB12CD")
    as (_ & uid & r & H1 & H2 & _ & H3 & _).
  - vm_compute. discriminate.
  - exists uid, r. auto.
Defined.

(** ** The set-up screen after a failure *)

(** On the room panel of the set-up screen without a room code nothing can
    happen any more: the panel offers no action, and no channel is
    subscribed, so broadcasts are not received. *)
Lemma panel_without_room_is_final acts : forall w,
  render (app (fst w)) = OnlineSetupRoom ->
  push_target (app (fst w)) = None ->
  session_of_play acts w = true ->
  perform acts w = w.
Proof.
  induction acts as [|a acts IH]; intros w Hr Hpt Hplay; [reflexivity |].
  cbn [session_of_play] in Hplay. apply andb_true_iff in Hplay as [Ha Hrest].
  rewrite perform_cons.
  assert (act a w = w) as Hact.
  { destruct w as [[s sess] db]. cbn [fst app] in *.
    destruct a as [[mode | text | user raw | user | index now | | payload]
                  | | p text | | |]; cbn [offered] in Ha;
      try (apply andb_true_iff in Ha as [Ha _]);
      try (apply bool_decide_eq_true in Ha; congruence).
    cbn [act step fst snd app session]. unfold game_update. rewrite Hpt.
    reflexivity. }
  rewrite Hact in *. apply IH; assumption.
Qed.

Lemma set_error_from_form msg s :
  render s = OnlineSetupForm ->
  render (set_error msg s) = OnlineSetupRoom
  /\ push_target (set_error msg s) = None.
Proof.
  intros H. apply render_form_online in H as [Hm Hog].
  unfold render, push_target, is_online, online_connected, online_room, set_error.
  cbn [gameMode onlineGame]. rewrite Hm, Hog. cbn. auto.
Qed.

(** X22. A failed join cannot be retried.  If [joinRoom], called from the
    form with a code typed, does not connect (no user from the sign-up, no
    such room, room not waiting, or the policies in the way), the component
    shows the room panel with the error, and from there nothing the screen
    offers, and no broadcast, changes the state or the table. *)
Theorem failed_join_is_final c db user acts :
  render (app c) = OnlineSetupForm ->
  nonempty (joinCode (app c)) = true ->
  online_connected (app (fst (joinRoom c db user))) = false ->
  session_of_play acts (joinRoom c db user) = true ->
  render (app (fst (joinRoom c db user))) = OnlineSetupRoom
  /\ (errorMessage <$> onlineGame (app (fst (joinRoom c db user))))
     = Some (Some "Failed to join room")
  /\ perform acts (joinRoom c db user) = joinRoom c db user.
Proof.
  intros Hform Hne Hconn Hplay.
  destruct (set_error_from_form "Failed to join room" (app c) Hform)
    as [Hr Hpt].
  assert (app (fst (joinRoom c db user))
          = set_error "Failed to join room" (app c)) as Happ.
  { revert Hconn. unfold joinRoom. rewrite Hne. cbn [negb].
    destruct user as [uid|]; [| reflexivity].
    destruct (GameRooms.update _ _ _ _ _) as [db' [room|]]; cbn [fst app];
      [| reflexivity].
    unfold online_connected, set_connected. cbn. discriminate. }
  split; [rewrite Happ; exact Hr |]. split.
  - rewrite Happ. unfold set_error. cbn [onlineGame].
    destruct (onlineGame (app c)); reflexivity.
  - apply panel_without_room_is_final; [| | exact Hplay]; rewrite Happ;
      assumption.
Qed.

Lemma failed_join_is_final_witness :
  let w := joinRoom guest_typed (snd host_in_room) (Some "guest") in
  perform [Do (Broadcast (mkPayload empty_board O None))] w = w.
Proof.
  intros w.
  apply (failed_join_is_final guest_typed (snd host_in_room) (Some "guest")
           [Do (Broadcast (mkPayload empty_board O None))]);
    reflexivity.
Defined.

(** X23. A failed room creation cannot be retried either: if [createRoom],
    called from the form, fails (no user from the sign-up, or the code is
    taken), the component shows the room panel with the error, and nothing
    changes from there. *)
Theorem failed_create_is_final c db user raw acts :
  render (app c) = OnlineSetupForm ->
  online_connected (app (fst (createRoom c db user raw))) = false ->
  session_of_play acts (createRoom c db user raw) = true ->
  render (app (fst (createRoom c db user raw))) = OnlineSetupRoom
  /\ snd (createRoom c db user raw) = db
  /\ perform acts (createRoom c db user raw) = createRoom c db user raw.
Proof.
  intros Hform Hconn Hplay.
  destruct (set_error_from_form "Failed to create room" (app c) Hform)
    as [Hr Hpt].
  assert (app (fst (createRoom c db user raw))
          = set_error "Failed to create room" (app c)
          /\ snd (createRoom c db user raw) = db) as [Happ Hdb].
  { revert Hconn. unfold createRoom.
    destruct user as [uid|]; [| auto].
    destruct (GameRooms.insert _ _ _ _ _ _); cbn [fst snd app]; [| auto].
    unfold online_connected, set_connected. cbn. discriminate. }
  split; [rewrite Happ; exact Hr |]. split; [exact Hdb |].
  apply panel_without_room_is_final; [| | exact Hplay]; rewrite Happ;
    assumption.
Qed.

Lemma failed_create_is_final_witness :
  let c := mkClient (setGameMode online initial_state) None in
  let w := createRoom c (snd host_in_room) (Some "late") "AB12cd" in
  snd w = snd host_in_room
  /\ perform [Do (Broadcast (mkPayload empty_board O None))] w = w.
Proof.
  intros c w.
  destruct (failed_create_is_final c (snd host_in_room) (Some "late") "AB12cd"
              [Do (Broadcast (mkPayload empty_board O None))])
    as (_ & H1 & H2); try reflexivity.
  split; [exact H1 | exact H2].
Defined.

(** ** joinRoom and the code field *)

(** X24. What [joinRoom] can and cannot do.  It never touches the game in
    progress, the players, the history or the typed code (in particular it
    does not load the room's board); with an empty code it does nothing at
    all.  Either the table is unchanged, or the room under the upper-cased
    code was [waiting] without guest and now differs from it exactly in
    [guest_id] (the caller) and [status] ([playing]), and the caller is
    connected to that code with mark O. *)
Theorem joinRoom_effects c db user :
  let code := toUpperCase (joinCode (app c)) in
  let w' := joinRoom c db user in
  game_of (app (fst w')) = game_of (app c)
  /\ players (app (fst w')) = players (app c)
  /\ gameHistory (app (fst w')) = gameHistory (app c)
  /\ joinCode (app (fst w')) = joinCode (app c)
  /\ (nonempty (joinCode (app c)) = false -> w' = (c, db))
  /\ (snd w' = db
      \/ exists uid r,
           user = Some uid /\ db !! code = Some r
           /\ GameRooms.status r = waiting /\ GameRooms.guest_id r = None
           /\ snd w' =
                <[code := {| GameRooms.host_id := GameRooms.host_id r;
                             GameRooms.guest_id := Some uid;
                             GameRooms.board := GameRooms.board r;
                             GameRooms.current_player :=
                               GameRooms.current_player r;
                             GameRooms.winner := GameRooms.winner r;
                             GameRooms.status := playing |}]> db
           /\ online_connected (app (fst w')) = true
           /\ own_mark (app (fst w')) = O
           /\ online_room (app (fst w')) = Some code).
Proof.
  cbv zeta. destruct (nonempty (joinCode (app c))) eqn:Hne.
  - assert (nonempty (toUpperCase (joinCode (app c))) = true) as Hne'.
    { destruct (joinCode (app c)); [discriminate | reflexivity]. }
    destruct user as [uid|].
    + destruct (joinRoom_cases c db uid Hne)
        as [(r & Hr & Hs & Hg & _ & ->) | ->]; cbn [fst snd app].
      * repeat (split; [reflexivity || discriminate |]).
        right. exists uid, r. repeat (split; [assumption || reflexivity |]).
        unfold online_connected, own_mark, online_room, set_connected.
        cbn. rewrite Hne'. auto.
      * repeat (split; [reflexivity || discriminate |]). left. reflexivity.
    + unfold joinRoom. rewrite Hne. cbn [negb fst snd app].
      repeat (split; [reflexivity || discriminate |]). left. reflexivity.
  - unfold joinRoom. rewrite Hne. cbn [negb fst snd].
    repeat (split; [reflexivity |]). left. reflexivity.
Qed.

Lemma act_joinCode a w :
  joinCode (app (fst (act a w))) = joinCode (app (fst w))
  \/ exists text,
       a = Do (TypeCode text)
       /\ joinCode (app (fst (act a w))) = toUpperCase text.
Proof.
  destruct w as [c db].
  destruct a as [[mode | text | user raw | user | index now | | payload]
                | | p text | | |]; cbn [act step fst snd app];
    try (left; reflexivity).
  - right. eauto.
  - left. unfold createRoom. destruct user as [uid|]; [| reflexivity].
    destruct (GameRooms.insert _ _ _ _ _ _); reflexivity.
  - left. unfold joinRoom. destruct (negb _); [reflexivity |].
    destruct user as [uid|]; [| reflexivity].
    destruct (GameRooms.update _ _ _ _ _) as [db' [room|]]; reflexivity.
  - left. unfold handleClick. destruct (click_ignored (app c) index);
      [reflexivity |].
    cbn [fst app]. unfold apply_click. destruct (checkWinner _); reflexivity.
  - left. unfold game_update. destruct (push_target (app c)); reflexivity.
Qed.

Lemma upper_char_not_lower c : is_lower (upper_char c) = false.
Proof. destruct c as [[] [] [] [] [] [] [] []]; reflexivity. Qed.

Lemma toUpperCase_no_lower s :
  string_forall (fun c => negb (is_lower c)) (toUpperCase s) = true.
Proof.
  induction s as [|c s IH]; [reflexivity |].
  cbn [toUpperCase string_forall]. rewrite upper_char_not_lower, IH. reflexivity.
Qed.

(** X25. The code field, for ASCII input: if every text typed is ASCII,
    then through the screens the typed code never has more than six
    characters and never holds a lower-case letter [a]-[z], so the
    upper-casing [joinRoom] applies to it changes nothing.  (Outside ASCII
    JavaScript's [toUpperCase] can lengthen a string, and the model does not
    apply.) *)
Theorem join_code_is_upper_case acts w :
  ascii_typed acts ->
  session_of_play acts w = true ->
  String.length (joinCode (app (fst w))) <= 6 ->
  string_forall (fun c => negb (is_lower c)) (joinCode (app (fst w))) = true ->
  let code := joinCode (app (fst (perform acts w))) in
  String.length code <= 6
  /\ string_forall (fun c => negb (is_lower c)) code = true
  /\ toUpperCase code = code.
Proof.
  intros _ Hplay Hlen Hup. cbv zeta.
  assert (forall s, string_forall (fun c => negb (is_lower c)) s = true ->
                    toUpperCase s = s) as Hfix.
  { induction s as [|c s IH]; [reflexivity |]. cbn [string_forall toUpperCase].
    rewrite andb_true_iff, negb_true_iff. intros [Hc Hs].
    unfold upper_char. rewrite Hc, (IH Hs). reflexivity. }
  assert (String.length (joinCode (app (fst (perform acts w)))) <= 6
          /\ string_forall (fun c => negb (is_lower c))
               (joinCode (app (fst (perform acts w)))) = true) as [H1 H2].
  { apply (play_invariant
             (fun s => String.length (joinCode s) <= 6
                       /\ string_forall (fun c => negb (is_lower c))
                            (joinCode s) = true));
      [| exact Hplay | auto].
    intros a w' _ Hoff [Hl Hu].
    destruct (act_joinCode a w') as [-> | (text & -> & ->)]; [auto |].
    cbn [offered] in Hoff. apply andb_true_iff in Hoff as [_ Hoff].
    apply Nat.leb_le in Hoff.
    rewrite toUpperCase_length. split; [exact Hoff | apply toUpperCase_no_lower]. }
  auto.
Qed.

Lemma join_code_is_upper_case_witness :
  joinCode (app (fst (perform
     [Do (ChooseMode online); Do (TypeCode "ab"); Do (TypeCode "ab12cd")]
     (mkClient initial_state None, ∅)))) = "AB12CD"
  /\ toUpperCase "AB12CD" = "AB12CD".
Proof.
  split; [reflexivity |].
  apply (join_code_is_upper_case
           [Do (ChooseMode online); Do (TypeCode "ab"); Do (TypeCode "ab12cd")]
           (mkClient initial_state None, ∅));
    [| reflexivity | cbn; lia | reflexivity].
  intros text Hin. cbn in Hin.
  destruct Hin as [Hin | [Hin | [Hin | []]]]; try discriminate;
    injection Hin as <-; reflexivity.
Defined.
